(** * The SAM daemon of luminous: framing, dispatch and the shared-memory bridge

    A shallow embedding of [src/plugins/segment-anything/main.py].  The daemon
    accepts one TCP connection, reassembles newline-delimited JSON commands
    from the received chunks, and answers [set_image] and [click] commands by
    mapping POSIX shared-memory segments created by the host.

    Python [bytes] are lists of byte values (Z in 0..255), Python [str] values
    are lists of code points ([text]).  The Python statements that run inside
    the [try] block of the main loop are written in a state/exception monad
    with an event log; an exception is the [None] result, and the state at the
    point of the raise is kept (Python does not roll back assignments). *)

From Stdlib Require Import ZArith List String Ascii Bool Lia.
Import ListNotations.
Open Scope Z_scope.
Set Warnings "-register-all".

Definition text := list Z.
Definition bytes := list Z.

(** ASCII literals as code points (also their UTF-8 encoding). *)
Definition txt (s : string) : text :=
  map (fun a => Z.of_nat (nat_of_ascii a)) (list_ascii_of_string s).

(** Record literals are written with single quotes standing for JSON's
    double quotes. *)
Definition jtxt (s : string) : text :=
  map (fun c => if c =? 39 then 34 else c) (txt s).

(** ** [bytes.decode("utf-8")], strict mode *)

Definition in_range (lo hi b : Z) : bool := (lo <=? b) && (b <=? hi).
Definition cont (b : Z) : bool := in_range 128 191 b.

Fixpoint utf8_decode (bs : bytes) : option text :=
  match bs with
  | [] => Some []
  | b1 :: r1 =>
    if in_range 0 127 b1 then option_map (cons b1) (utf8_decode r1)
    else if in_range 194 223 b1 then
      match r1 with
      | b2 :: r2 =>
        if cont b2
        then option_map (cons ((b1 - 192) * 64 + (b2 - 128))) (utf8_decode r2)
        else None
      | [] => None
      end
    else if in_range 224 239 b1 then
      match r1 with
      | b2 :: b3 :: r3 =>
        let lo := if b1 =? 224 then 160 else 128 in
        let hi := if b1 =? 237 then 159 else 191 in
        if in_range lo hi b2 && cont b3
        then option_map
               (cons ((b1 - 224) * 4096 + (b2 - 128) * 64 + (b3 - 128)))
               (utf8_decode r3)
        else None
      | _ => None
      end
    else if in_range 240 244 b1 then
      match r1 with
      | b2 :: b3 :: b4 :: r4 =>
        let lo := if b1 =? 240 then 144 else 128 in
        let hi := if b1 =? 244 then 143 else 191 in
        if in_range lo hi b2 && cont b3 && cont b4
        then option_map
               (cons ((b1 - 240) * 262144 + (b2 - 128) * 4096
                      + (b3 - 128) * 64 + (b4 - 128)))
               (utf8_decode r4)
        else None
      | _ => None
      end
    else None
  end.

(** ** JSON values, as [json.loads] returns them *)

Inductive jvalue :=
| JNull
| JBool (b : bool)
| JInt (z : Z)
| JFloat (lit : text)
| JStr (s : text)
| JArr (vs : list jvalue)
| JObj (kvs : list (text * jvalue)).

Fixpoint text_eqb (a b : text) : bool :=
  match a, b with
  | [], [] => true
  | x :: a', y :: b' => (x =? y) && text_eqb a' b'
  | _, _ => false
  end.

(** A Python [dict] built from a JSON object keeps the last binding of a
    duplicated key. *)
Fixpoint obj_lookup (k : text) (kvs : list (text * jvalue)) : option jvalue :=
  match kvs with
  | [] => None
  | (k', v) :: r =>
    match obj_lookup k r with
    | Some w => Some w
    | None => if text_eqb k k' then Some v else None
    end
  end.

(** ** A decoder for JSON texts, following Python's [json.loads]

    The daemon's loop below is parametrised by the decoder; this concrete one
    is used to run the loop on concrete records.  It accepts the JSON grammar
    with Python's extensions [NaN], [Infinity] and [-Infinity]; numbers with
    a fraction or an exponent are kept as their literal ([JFloat]). *)

Definition is_ws (c : Z) : bool := (c =? 32) || (c =? 9) || (c =? 10) || (c =? 13).
Definition is_digit (c : Z) : bool := in_range 48 57 c.

Fixpoint skip_ws (s : text) : text :=
  match s with
  | c :: r => if is_ws c then skip_ws r else s
  | [] => []
  end.

Fixpoint lit_prefix (p s : text) : option text :=
  match p with
  | [] => Some s
  | c :: p' =>
    match s with
    | d :: s' => if c =? d then lit_prefix p' s' else None
    | [] => None
    end
  end.

Fixpoint take_digits (s : text) : text * text :=
  match s with
  | c :: r => if is_digit c then let '(d, r') := take_digits r in (c :: d, r') else ([], s)
  | [] => ([], [])
  end.

Definition digits_value (d : text) : Z :=
  fold_left (fun acc c => acc * 10 + (c - 48)) d 0.

Definition hex_value (c : Z) : option Z :=
  if is_digit c then Some (c - 48)
  else if in_range 97 102 c then Some (c - 87)
  else if in_range 65 70 c then Some (c - 55)
  else None.

Definition hex4 (a b c d : Z) : option Z :=
  match hex_value a, hex_value b, hex_value c, hex_value d with
  | Some x, Some y, Some z, Some w => Some (((x * 16 + y) * 16 + z) * 16 + w)
  | _, _, _, _ => None
  end.

Definition simple_escape (e : Z) : option Z :=
  if e =? 34 then Some 34 else if e =? 92 then Some 92
  else if e =? 47 then Some 47 else if e =? 98 then Some 8
  else if e =? 102 then Some 12 else if e =? 110 then Some 10
  else if e =? 114 then Some 13 else if e =? 116 then Some 9
  else None.

(** The body of a string literal after its opening quote; control characters
    are refused (Python's [strict=True]); a high surrogate escape followed by
    a low surrogate escape is combined into one code point. *)
Fixpoint str_body (s : text) (acc : text) : option (text * text) :=
  match s with
  | [] => None
  | c :: r =>
    if c =? 34 then Some (rev acc, r)
    else if c =? 92 then
      match r with
      | 117 :: a :: b :: c' :: d :: r' =>
        match hex4 a b c' d with
        | None => None
        | Some u =>
          if in_range 55296 56319 u then
            match r' with
            | 92 :: 117 :: a2 :: b2 :: c2 :: d2 :: r2 =>
              match hex4 a2 b2 c2 d2 with
              | Some u2 =>
                if in_range 56320 57343 u2
                then str_body r2 ((65536 + (u - 55296) * 1024 + (u2 - 56320)) :: acc)
                else str_body r' (u :: acc)
              | None => str_body r' (u :: acc)
              end
            | _ => str_body r' (u :: acc)
            end
          else str_body r' (u :: acc)
        end
      | e :: r' =>
        match simple_escape e with
        | Some v => str_body r' (v :: acc)
        | None => None
        end
      | [] => None
      end
    else if c <? 32 then None
    else str_body r (c :: acc)
  end.

(** Numbers: [-?(0|[1-9][0-9]* )(\.[0-9]+)?([eE][+-]?[0-9]+)?].  An integer
    literal of more than 4300 digits raises [ValueError] (the limit Python
    3.11 puts on converting a decimal string to [int]). *)
Definition number (s : text) : option (jvalue * text) :=
  let '(neg, s1) := match s with 45 :: r => (true, r) | _ => (false, s) end in
  let int_part :=
    match s1 with
    | 48 :: r => Some ([48], r)
    | c :: _ => if is_digit c then Some (take_digits s1) else None
    | [] => None
    end in
  match int_part with
  | None => None
  | Some (ds, r1) =>
    let '(frac, r2) :=
      match r1 with
      | 46 :: r => let '(f, r') := take_digits r in
                   match f with [] => (None, r1) | _ => (Some (46 :: f), r') end
      | _ => (Some [], r1)
      end in
    match frac with
    | None => None
    | Some fr =>
      let '(ex, r3) :=
        match r2 with
        | e :: r =>
          if (e =? 101) || (e =? 69) then
            let '(sg, r') := match r with
                             | 43 :: q => ([43], q) | 45 :: q => ([45], q) | _ => ([], r) end in
            let '(d, r'') := take_digits r' in
            match d with [] => (None, r2) | _ => (Some (e :: sg ++ d), r'') end
          else (Some [], r2)
        | [] => (Some [], r2)
        end in
      match ex with
      | None => None
      | Some exn =>
        match fr, exn with
        | [], [] =>
          if Nat.ltb 4300 (List.length ds) then None
          else let v := digits_value ds in Some (JInt (if neg then - v else v), r3)
        | _, _ =>
          Some (JFloat ((if neg then [45] else []) ++ ds ++ fr ++ exn), r3)
        end
      end
    end
  end.

Fixpoint value (fuel : nat) (s : text) : option (jvalue * text) :=
  match fuel with
  | O => None
  | S f =>
    match skip_ws s with
    | 123 :: r =>
      match skip_ws r with
      | 125 :: r' => Some (JObj [], r')
      | _ => members f r []
      end
    | 91 :: r =>
      match skip_ws r with
      | 93 :: r' => Some (JArr [], r')
      | _ => elements f r []
      end
    | 34 :: r => option_map (fun '(t, r') => (JStr t, r')) (str_body r [])
    | s' =>
      match lit_prefix (txt "null") s' with Some r => Some (JNull, r) | None =>
      match lit_prefix (txt "true") s' with Some r => Some (JBool true, r) | None =>
      match lit_prefix (txt "false") s' with Some r => Some (JBool false, r) | None =>
      match lit_prefix (txt "NaN") s' with Some r => Some (JFloat (txt "NaN"), r) | None =>
      match lit_prefix (txt "Infinity") s' with
      | Some r => Some (JFloat (txt "Infinity"), r) | None =>
      match lit_prefix (txt "-Infinity") s' with
      | Some r => Some (JFloat (txt "-Infinity"), r) | None => number s'
      end end end end end end
    end
  end
with members (fuel : nat) (s : text) (acc : list (text * jvalue))
  : option (jvalue * text) :=
  match fuel with
  | O => None
  | S f =>
    match skip_ws s with
    | 34 :: r =>
      match str_body r [] with
      | Some (k, r1) =>
        match skip_ws r1 with
        | 58 :: r2 =>
          match value f r2 with
          | Some (v, r3) =>
            match skip_ws r3 with
            | 44 :: r4 => members f r4 ((k, v) :: acc)
            | 125 :: r4 => Some (JObj (rev ((k, v) :: acc)), r4)
            | _ => None
            end
          | None => None
          end
        | _ => None
        end
      | None => None
      end
    | _ => None
    end
  end
with elements (fuel : nat) (s : text) (acc : list jvalue) : option (jvalue * text) :=
  match fuel with
  | O => None
  | S f =>
    match value f s with
    | Some (v, r3) =>
      match skip_ws r3 with
      | 44 :: r4 => elements f r4 (v :: acc)
      | 93 :: r4 => Some (JArr (rev (v :: acc)), r4)
      | _ => None
      end
    | None => None
    end
  end.

(** The nesting depth of arrays and objects in a value. *)
Fixpoint jdepth (v : jvalue) : nat :=
  match v with
  | JArr vs =>
    S ((fix go (l : list jvalue) : nat :=
          match l with [] => O | x :: r => Nat.max (jdepth x) (go r) end) vs)
  | JObj kvs =>
    S ((fix go (l : list (text * jvalue)) : nat :=
          match l with [] => O | (_, x) :: r => Nat.max (jdepth x) (go r) end) kvs)
  | _ => O
  end.

(** [json.loads(s)]: [None] is a raised exception: [JSONDecodeError], the
    [ValueError] of an over-long integer, or the [RecursionError] of the C
    scanner, which enters one recursion level per nested array or object:
    with [main.py] run as a script (recursion limit 1000), 994 levels decode
    and 995 raise. *)
Definition json_loads (s : text) : option jvalue :=
  match value (2 * List.length s + 2) s with
  | Some (v, r) =>
    match skip_ws r with
    | [] => if Nat.ltb 994 (jdepth v) then None else Some v
    | _ => None
    end
  | None => None
  end.


(** ** Daemon state

    The local variables of [main] that live across loop iterations, the
    predictor's image state, and the part of the operating system the daemon
    touches: the files of [/dev/shm] that back POSIX shared memory (name and
    size; the host's segments among them) and the cache of the
    [multiprocessing.resource_tracker] process, which reads the daemon's
    messages line by line and unlinks every resource still in its cache when
    the daemon ends.  File names are kept as code points; UTF-8 is injective,
    so comparing them compares the bytes. *)

(** A [multiprocessing.shared_memory.SharedMemory] object: its [_name]
    (the name given, with a slash prepended), the segment file it opened, the
    size of its mapping, and whether the mapping is still in place. *)
Record shm_obj := { sh_name : text; sh_file : text; sh_size : Z; sh_open : bool }.

Record dstate := {
  buffer : text;                (* [buffer] *)
  line : option text;           (* [line]; [None] while unbound *)
  curr_img_w : jvalue;          (* [curr_img_w] *)
  curr_img_h : jvalue;          (* [curr_img_h] *)
  features : option (Z * Z);    (* [predictor.features], with the image size *)
  shm : option shm_obj;         (* local [shm] *)
  m_shm : option shm_obj;       (* local [m_shm] *)
  segments : list (text * Z);   (* the files of [/dev/shm], name and size *)
  tracked : list (text * text)  (* the resource tracker's cache: type, name *)
}.

Definition with_frame (l : option text) (b : text) (s : dstate) : dstate :=
  {| buffer := b; line := l; curr_img_w := curr_img_w s; curr_img_h := curr_img_h s;
     features := features s; shm := shm s; m_shm := m_shm s;
     segments := segments s; tracked := tracked s |}.
Definition with_curr_w (v : jvalue) (s : dstate) : dstate :=
  {| buffer := buffer s; line := line s; curr_img_w := v; curr_img_h := curr_img_h s;
     features := features s; shm := shm s; m_shm := m_shm s;
     segments := segments s; tracked := tracked s |}.
Definition with_curr_h (v : jvalue) (s : dstate) : dstate :=
  {| buffer := buffer s; line := line s; curr_img_w := curr_img_w s; curr_img_h := v;
     features := features s; shm := shm s; m_shm := m_shm s;
     segments := segments s; tracked := tracked s |}.
Definition with_features (f : option (Z * Z)) (s : dstate) : dstate :=
  {| buffer := buffer s; line := line s; curr_img_w := curr_img_w s;
     curr_img_h := curr_img_h s; features := f; shm := shm s; m_shm := m_shm s;
     segments := segments s; tracked := tracked s |}.
Definition with_shm (o : option shm_obj) (s : dstate) : dstate :=
  {| buffer := buffer s; line := line s; curr_img_w := curr_img_w s;
     curr_img_h := curr_img_h s; features := features s; shm := o; m_shm := m_shm s;
     segments := segments s; tracked := tracked s |}.
Definition with_m_shm (o : option shm_obj) (s : dstate) : dstate :=
  {| buffer := buffer s; line := line s; curr_img_w := curr_img_w s;
     curr_img_h := curr_img_h s; features := features s; shm := shm s; m_shm := o;
     segments := segments s; tracked := tracked s |}.
Definition with_segments (sg : list (text * Z)) (s : dstate) : dstate :=
  {| buffer := buffer s; line := line s; curr_img_w := curr_img_w s;
     curr_img_h := curr_img_h s; features := features s; shm := shm s;
     m_shm := m_shm s; segments := sg; tracked := tracked s |}.
Definition with_tracked (t : list (text * text)) (s : dstate) : dstate :=
  {| buffer := buffer s; line := line s; curr_img_w := curr_img_w s;
     curr_img_h := curr_img_h s; features := features s; shm := shm s;
     m_shm := m_shm s; segments := segments s; tracked := t |}.

(** The process state when the connection has been accepted. *)
Definition init (segs : list (text * Z)) : dstate :=
  {| buffer := []; line := None; curr_img_w := JInt 0; curr_img_h := JInt 0;
     features := None; shm := None; m_shm := None; segments := segs; tracked := [] |}.

(** ** Observable effects *)

Inductive reply := OK | ER | BY.

Inductive event :=
| EvBlock (l : option text)     (* entry into the [try] block, on [line] *)
| EvSend (r : reply)            (* [conn.sendall(b"..")] *)
| EvOpen (n : text)             (* a successful [shm_open(O_RDWR)] of a segment *)
| EvRead (n : text)             (* the predictor reads the mapped pixels *)
| EvWrite (n : text)            (* [np.copyto] into the mapped mask *)
| EvClose (n : text)            (* unmapping ([SharedMemory.close]) *)
| EvUnlink (n : text).          (* [shm_unlink] *)

(** ** The state/exception monad *)

Definition M (A : Type) : Type := dstate -> option A * dstate * list event.

Definition ret {A} (a : A) : M A := fun s => (Some a, s, []).
Definition bind {A B} (m : M A) (k : A -> M B) : M B :=
  fun s =>
    match m s with
    | (Some a, s1, e1) => let '(r, s2, e2) := k a s1 in (r, s2, e1 ++ e2)
    | (None, s1, e1) => (None, s1, e1)
    end.
Definition raise {A} : M A := fun s => (None, s, []).
Definition emit (e : event) : M unit := fun s => (Some tt, s, [e]).
Definition gets {A} (f : dstate -> A) : M A := fun s => (Some (f s), s, []).
Definition modify (f : dstate -> dstate) : M unit := fun s => (Some tt, f s, []).

(** [try: m  except Exception: h] *)
Definition try_except (m h : M unit) : M unit :=
  fun s =>
    match m s with
    | (Some _, s1, e1) => (Some tt, s1, e1)
    | (None, s1, e1) => let '(r, s2, e2) := h s1 in (r, s2, e1 ++ e2)
    end.

Notation "x <- m ;; k" := (bind m (fun x => k))
  (at level 61, m at next level, right associativity).
Notation "m ;; k" := (bind m (fun _ : unit => k)) (at level 61, right associativity).

(** ** Python operations on decoded commands *)

(** [cmd[k]]: [KeyError] when the key is missing, [TypeError] when [cmd] is
    not a dict. *)
Definition getitem (cmd : jvalue) (k : text) : M jvalue :=
  match cmd with
  | JObj kvs => match obj_lookup k kvs with Some v => ret v | None => raise end
  | _ => raise
  end.

(** [cmd.get(k)]: [AttributeError] when [cmd] is not a dict. *)
Definition dict_get (cmd : jvalue) (k : text) : M (option jvalue) :=
  match cmd with
  | JObj kvs => ret (obj_lookup k kvs)
  | _ => raise
  end.

(** [action == "..."] *)
Definition is_action (a : option jvalue) (name : string) : bool :=
  match a with Some (JStr t) => text_eqb t (txt name) | _ => false end.

(** ** The shared-memory layer *)

Fixpoint seg_lookup (n : text) (sg : list (text * Z)) : option Z :=
  match sg with
  | [] => None
  | (n', sz) :: r => if text_eqb n n' then Some sz else seg_lookup n r
  end.

Fixpoint seg_remove (n : text) (sg : list (text * Z)) : list (text * Z) :=
  match sg with
  | [] => []
  | (n', sz) :: r => if text_eqb n n' then seg_remove n r else (n', sz) :: seg_remove n r
  end.

Definition is_surrogate (c : Z) : bool := in_range 55296 57343 c.

Fixpoint upto_nul (t : text) : text :=
  match t with
  | [] => []
  | c :: r => if c =? 0 then [] else c :: upto_nul r
  end.

(** A [str] passed to [_posixshmem] as a C string ([PyUnicode_AsUTF8]):
    [UnicodeEncodeError] on a lone surrogate; C reads up to the first NUL. *)
Definition c_string (t : text) : option text :=
  if existsb is_surrogate t then None else Some (upto_nul t).

Fixpoint strip_slashes (t : text) : text :=
  match t with
  | 47 :: r => strip_slashes r
  | _ => t
  end.

Definition utf8_len (t : text) : Z :=
  fold_right (fun c n => (if c <? 128 then 1 else if c <? 2048 then 2
                          else if c <? 65536 then 3 else 4) + n) 0 t.

(** glibc's [__shm_get_name]: the file of [/dev/shm] a C name stands for,
    [sem.] prefixed for a semaphore.  Leading slashes are dropped; an empty
    name, a name holding a slash, ["."] and [".."] are [EINVAL], a file name
    longer than [NAME_MAX] (255 bytes) is [ENAMETOOLONG]. *)
Definition shm_file (sem : bool) (c : text) : option text :=
  let k := strip_slashes c in
  let f := (if sem then txt "sem." else []) ++ k in
  if match k with [] => true | _ => false end || existsb (Z.eqb 47) k ||
     text_eqb k [46] || text_eqb k [46; 46] || (255 <? utf8_len f)
  then None else Some f.

(** The segment file [_posixshmem.shm_open(name)] and
    [_posixshmem.shm_unlink(name)] act on. *)
Definition shm_path (name : text) : option text :=
  match c_string name with Some c => shm_file false c | None => None end.

(** [_posixshmem.shm_open(name, O_RDWR)]: [ENOENT] when the segment does not
    exist; the result stands for the descriptor, by the file it opened. *)
Definition shm_open (name : text) : M text :=
  match shm_path name with
  | None => raise
  | Some k =>
    sz <- gets (fun s => seg_lookup k (segments s));;
    match sz with
    | Some _ => emit (EvOpen k);; ret k
    | None => raise
    end
  end.

(** [_posixshmem.shm_unlink(name)] *)
Definition shm_unlink (name : text) : M unit :=
  match shm_path name with
  | None => raise
  | Some k =>
    sz <- gets (fun s => seg_lookup k (segments s));;
    match sz with
    | Some _ => modify (fun s => with_segments (seg_remove k (segments s)) s);;
                emit (EvUnlink k)
    | None => raise
    end
  end.

(** [os.fstat(fd).st_size] *)
Definition fstat_size (k : text) : M Z :=
  gets (fun s => match seg_lookup k (segments s) with Some sz => sz | None => 0 end).

(** *** The resource tracker *)

Definition ascii_ws (c : Z) : bool :=
  (c =? 32) || (c =? 9) || (c =? 10) || (c =? 11) || (c =? 12) || (c =? 13).

Fixpoint lstrip_ws (l : text) : text :=
  match l with
  | c :: r => if ascii_ws c then lstrip_ws r else l
  | [] => []
  end.

(** [bytes.strip()] *)
Definition bytes_strip (l : text) : text := rev (lstrip_ws (rev (lstrip_ws l))).

(** [t.split(chr(sep))] *)
Fixpoint split_on (sep : Z) (t : text) : list text :=
  match t with
  | [] => [[]]
  | c :: r =>
    if c =? sep then [] :: split_on sep r
    else match split_on sep r with
         | p :: ps => (c :: p) :: ps
         | [] => [[c]]
         end
  end.

Definition entry_eqb (a b : text * text) : bool :=
  text_eqb (fst a) (fst b) && text_eqb (snd a) (snd b).

(** The resource types the tracker knows (on Linux). *)
Definition rtypes : list text := [txt "noop"; txt "semaphore"; txt "shared_memory"].

(** The tracker's handling of one line [cmd:name:rtype] ([main] of
    [resource_tracker.py]): a line that does not split into three fields,
    an unknown type or command, or the removal of an absent name raises an
    exception that the tracker reports and skips. *)
Definition tracker_line (cache : list (text * text)) (l : text) : list (text * text) :=
  match split_on 58 (bytes_strip l) with
  | [cmd; name; rtype] =>
    if existsb (text_eqb rtype) rtypes then
      if text_eqb cmd (txt "REGISTER") then
        if existsb (entry_eqb (rtype, name)) cache then cache else (rtype, name) :: cache
      else if text_eqb cmd (txt "UNREGISTER") then
        filter (fun e => negb (entry_eqb (rtype, name) e)) cache
      else cache
    else cache
  | _ => cache
  end.

(** The tracker reads the pipe line by line; every message ends in a
    newline, so the lines of a message are the pieces before its newlines. *)
Definition tracker_feed (cache : list (text * text)) (msg : text) : list (text * text) :=
  fold_left tracker_line (removelast (split_on 10 msg)) cache.

(** [ResourceTracker._send(cmd, name, rtype)]: the message is encoded as
    ASCII ([UnicodeEncodeError] otherwise) and refused beyond 512 bytes
    ([ValueError]); the tracker handles the messages in the order they are
    written. *)
Definition tracker_send (cmd name rtype : text) : M unit :=
  let msg := cmd ++ [58] ++ name ++ [58] ++ rtype ++ [10] in
  if existsb (fun c => 128 <=? c) msg then raise
  else if 512 <? Z.of_nat (List.length msg) then raise
  else modify (fun s => with_tracked (tracker_feed (tracked s) msg) s).

Definition tracker_register (name : text) : M unit :=
  tracker_send (txt "REGISTER") name (txt "shared_memory").

Definition tracker_unregister (name : text) : M unit :=
  tracker_send (txt "UNREGISTER") name (txt "shared_memory").

(** What the tracker's cleanup of one cached resource does to [/dev/shm]
    when the daemon has ended: [_posixshmem.shm_unlink(name)] for a segment,
    [_multiprocessing.sem_unlink(name)] (a [ValueError] on a NUL) for a
    semaphore; a failing cleanup is reported and skipped. *)
Definition cleanup (sg : list (text * Z)) (e : text * text) : list (text * Z) :=
  let '(rtype, name) := e in
  let unlink f := match f with Some k => seg_remove k sg | None => sg end in
  if text_eqb rtype (txt "shared_memory") then unlink (shm_path name)
  else if text_eqb rtype (txt "semaphore") then
    if existsb (Z.eqb 0) name then sg
    else match c_string name with Some c => unlink (shm_file true c) | None => sg end
  else sg.

(** *** [SharedMemory] *)

(** [SharedMemory(name=name)] of CPython 3.11 on POSIX, the only call the
    daemon makes ([create=False], [size=0]).  [name] must be a [str] ([None]
    raises [ValueError], another type [TypeError] on ["/" + name]).  After
    [shm_open]: [fstat]; an empty segment makes [mmap] raise [ValueError];
    when [mmap] raises [OSError] ([ENOMEM]: the mapping does not fit the
    process's address space, decided by [mmap_ok]), the constructor unlinks
    the segment, unregisters the name and re-raises.  Then the name is
    registered with the tracker.  When that registration raises, the object
    is dropped with the exception, and its [__del__] unmaps it once the
    exception is released; the model does not log that unmapping. *)
Definition SharedMemory (mmap_ok : dstate -> Z -> bool) (name : jvalue) : M shm_obj :=
  match name with
  | JStr n =>
    let nm := 47 :: n in
    k <- shm_open nm;;
    sz <- fstat_size k;;
    if sz =? 0 then raise
    else
      ok <- gets (fun s => mmap_ok s sz);;
      if ok then
        tracker_register nm;;
        ret {| sh_name := nm; sh_file := k; sh_size := sz; sh_open := true |}
      else shm_unlink nm;; tracker_unregister nm;; raise
  | _ => raise
  end.

(** [SharedMemory.close()]: unmaps the view; the segment stays. *)
Definition sm_close (o : shm_obj) : M shm_obj :=
  if sh_open o then emit (EvClose (sh_file o));;
                    ret {| sh_name := sh_name o; sh_file := sh_file o; sh_size := sh_size o;
                           sh_open := false |}
  else ret o.

(** The two locals of [main] that hold [SharedMemory] objects. *)
Inductive local := LShm | LMShm.

Definition get_local (v : local) : M (option shm_obj) :=
  gets (fun s => match v with LShm => shm s | LMShm => m_shm s end).
Definition put_local (v : local) (o : option shm_obj) : M unit :=
  modify (fun s => match v with LShm => with_shm o s | LMShm => with_m_shm o s end).

(** [v = SharedMemory(...)]: the object [v] held before loses its last
    reference, and its [__del__] closes it. *)
Definition assign_local (v : local) (o : shm_obj) : M unit :=
  old <- get_local v;;
  put_local v (Some o);;
  match old with
  | Some o' => _ <- sm_close o';; ret tt
  | None => ret tt
  end.

(** [v.close()] *)
Definition close_local (v : local) : M unit :=
  cur <- get_local v;;
  match cur with
  | Some o => o' <- sm_close o;; put_local v (Some o')
  | None => raise
  end.

(** ** numpy *)

(** [NPY_MAX_INTP] on a 64-bit platform. *)
Definition intp_max : Z := 2 ^ 63 - 1.

(** A shape entry: a Python [int] that fits [npy_intp]; a [bool], a [float]
    or any other value raises [TypeError], a larger [int] [ValueError]. *)
Definition as_dim (v : jvalue) : option Z :=
  match v with
  | JInt z => if (- intp_max - 1 <=? z) && (z <=? intp_max) then Some z else None
  | _ => None
  end.

Fixpoint as_dims (vs : list jvalue) : option (list Z) :=
  match vs with
  | [] => Some []
  | v :: r => match as_dim v, as_dims r with Some d, Some ds => Some (d :: ds) | _, _ => None end
  end.

(** [np.ndarray(shape, dtype=np.uint8, buffer=buf)]: [ValueError] for a
    negative entry, and when the product of the nonzero entries (the item
    size is 1) exceeds [NPY_MAX_INTP]; [TypeError] when the buffer is
    smaller than the array. *)
Definition ndarray (shape : list jvalue) (buf_size : Z) : M (list Z) :=
  match as_dims shape with
  | Some ds =>
    if forallb (fun d => 0 <=? d) ds &&
       (fold_left Z.mul (filter (fun d => negb (d =? 0)) ds) 1 <=? intp_max) &&
       (fold_left Z.mul ds 1 <=? buf_size)
    then ret ds else raise
  | None => raise
  end.

(** [np.copyto(dst, src)]: [src] must broadcast to [dst]'s shape. *)
Definition broadcasts (src dst : Z * Z) : bool :=
  ((fst src =? fst dst) || (fst src =? 1)) && ((snd src =? snd dst) || (snd src =? 1)).

(** ** The predictor

    [SamPredictor] is an external collaborator.  [set_image] resets the
    features before it computes the new ones, so it can fail before or after
    that reset; [predict] returns masks of the loaded image's size. *)
Inductive set_outcome := SetDone | SetFailedBeforeReset | SetFailedAfterReset.

Record predictor := {
  set_image_outcome : Z -> Z -> set_outcome;      (* height, width *)
  predict_ok : Z * Z -> jvalue -> jvalue -> bool  (* image size, x, y *)
}.

Section Daemon.

Variable loads : text -> option jvalue.   (* [json.loads] *)
Variable pred : predictor.               (* [predictor] *)
Variable mmap_ok : dstate -> Z -> bool.  (* [mmap] finds room for a mapping *)

(** [predictor.set_image(img_array[:, :, :3])] *)
Definition predictor_set_image (h w : Z) : M unit :=
  match set_image_outcome pred h w with
  | SetDone => modify (with_features (Some (h, w)))
  | SetFailedBeforeReset => raise
  | SetFailedAfterReset => modify (with_features None);; raise
  end.

(** Lines 64-82. *)
Definition set_image_branch (cmd : jvalue) : M unit :=
  w <- getitem cmd (txt "width");;
  modify (with_curr_w w);;
  h <- getitem cmd (txt "height");;
  modify (with_curr_h h);;
  nm <- getitem cmd (txt "shm_name");;
  o <- SharedMemory mmap_ok nm;;
  assign_local LShm o;;
  tracker_unregister (sh_name o);;
  ch <- gets curr_img_h;;
  cw <- gets curr_img_w;;
  ds <- ndarray [ch; cw; JInt 4] (sh_size o);;
  match ds with
  | [hh; ww; _] =>
    emit (EvRead (sh_file o));;
    predictor_set_image hh ww;;
    close_local LShm;;
    emit (EvSend OK)
  | _ => raise
  end.

(** Lines 84-111. *)
Definition click_branch (cmd : jvalue) : M unit :=
  f <- gets features;;
  match f with
  | None => emit (EvSend BY)
  | Some sz =>
    x <- getitem cmd (txt "x");;
    y <- getitem cmd (txt "y");;
    (if predict_ok pred sz x y then ret tt else raise);;
    nm <- getitem cmd (txt "shm_name");;
    o <- SharedMemory mmap_ok nm;;
    assign_local LMShm o;;
    tracker_unregister (sh_name o);;
    ch <- gets curr_img_h;;
    cw <- gets curr_img_w;;
    ds <- ndarray [ch; cw] (sh_size o);;
    match ds with
    | [hh; ww] =>
      (if broadcasts sz (hh, ww) then emit (EvWrite (sh_file o)) else raise);;
      close_local LMShm;;
      emit (EvSend OK)
    | _ => raise
    end
  end.

(** Lines 61-111: the body of the [try].  An unbound [line] raises
    [UnboundLocalError]. *)
Definition handle : M unit :=
  l <- gets line;;
  match l with
  | None => raise
  | Some t =>
    match loads t with
    | None => raise
    | Some cmd =>
      action <- dict_get cmd (txt "action");;
      if is_action action "set_image" then set_image_branch cmd
      else if is_action action "click" then click_branch cmd
      else ret tt
    end
  end.

(** Lines 60-115. *)
Definition block : M unit :=
  l <- gets line;;
  emit (EvBlock l);;
  try_except handle (emit (EvSend ER)).

(** ** Framing, lines 53-58 *)

(** [buffer.split("\n", 1)] when ["\n" in buffer]. *)
Fixpoint split_nl (b : text) : option (text * text) :=
  match b with
  | [] => None
  | c :: r =>
    if c =? 10 then Some ([], r)
    else match split_nl r with Some (a, z) => Some (c :: a, z) | None => None end
  end.

(** [while "\n" in buffer: line, buffer = buffer.split("\n", 1); if not line:
    continue]; each iteration shortens the buffer, so [length buffer + 1]
    iterations suffice. *)
Fixpoint frame_loop (fuel : nat) (l : option text) (b : text) : option text * text :=
  match fuel with
  | O => (l, b)
  | S f =>
    match split_nl b with
    | Some (l', rest) => frame_loop f (Some l') rest
    | None => (l, b)
    end
  end.

Definition frame (l : option text) (b : text) : option text * text :=
  frame_loop (S (List.length b)) l b.

(** ** One iteration of [while True], lines 48-115 *)

Inductive recv_result := Data (b : bytes) | RecvError.

Inductive step_result :=
| Closed                              (* [if not data: break] *)
| Crashed (s : dstate) (evs : list event)  (* an exception leaves the loop *)
| Continue (s : dstate) (evs : list event).

Definition step (s : dstate) (r : recv_result) : step_result :=
  match r with
  | RecvError => Crashed s []
  | Data [] => Closed
  | Data b =>
    match utf8_decode b with
    | None => Crashed s []
    | Some t =>
      let '(l, buf) := frame (line s) (buffer s ++ t) in
      match block (with_frame l buf s) with
      | (Some _, s', evs) => Continue s' evs
      | (None, s', evs) => Crashed s' evs
      end
    end
  end.

Inductive loop_end := PeerClosed | Raised | Waiting.

(** The loop over the successive results of [conn.recv(4096)]; [Waiting]
    when the list ends while the daemon still blocks in [recv]. *)
Fixpoint run (s : dstate) (rs : list recv_result) : loop_end * dstate * list event :=
  match rs with
  | [] => (Waiting, s, [])
  | r :: rs' =>
    match step s r with
    | Closed => (PeerClosed, s, [])
    | Crashed s' e => (Raised, s', e)
    | Continue s' e => let '(k, s'', e') := run s' rs' in (k, s'', e ++ e')
    end
  end.

(** [main()] as a process: its exit status ([None] while it still runs).
    [sys.exit(1)] without the checkpoint; an exception from [bind] (port in
    use) or from the loop leaves [main] through the [finally] and the
    interpreter exits with status 1; returning from [main] exits with 0. *)
Definition main_exit (checkpoint_exists bind_ok : bool) (segs : list (text * Z))
    (rs : list recv_result) : option Z :=
  if negb checkpoint_exists then Some 1
  else if negb bind_ok then Some 1
  else match run (init segs) rs with
       | (PeerClosed, _, _) => Some 0
       | (Raised, _, _) => Some 1
       | (Waiting, _, _) => None
       end.

(** [/dev/shm] once the process has ended and the resource tracker has
    cleaned up what is left in its cache (in any order: unlinking commutes). *)
Definition segments_after_exit (s : dstate) : list (text * Z) :=
  fold_left cleanup (tracked s) (segments s).

End Daemon.

(** ** Concrete runs *)

(** A predictor that embeds every image with positive sides and answers
    every click given by integer coordinates. *)
Definition sam : predictor := {|
  set_image_outcome := fun h w =>
    if (0 <? h) && (0 <? w) then SetDone else SetFailedBeforeReset;
  predict_ok := fun _ x y =>
    match x, y with JInt _, JInt _ => true | _, _ => false end |}.

(** The address space of an x86-64 Linux process holds 128 TiB; the
    concrete runs take every mapping of at most 64 TiB to fit. *)
Definition mmap_fits (s : dstate) (sz : Z) : bool := sz <=? 2 ^ 46.

Definition nl : bytes := [10].

Definition rec_set_A2 : text :=
  jtxt "{'action': 'set_image', 'width': 2, 'height': 2, 'shm_name': 'A'}".
Definition rec_set_S4 : text :=
  jtxt "{'action': 'set_image', 'width': 4, 'height': 4, 'shm_name': 'S'}".
Definition rec_click_B : text :=
  jtxt "{'action': 'click', 'x': 1, 'y': 1, 'shm_name': 'B'}".
Definition rec_noop : text := jtxt "{'action': 'noop'}".

(** The host's segments: [A] and [S] hold 16 bytes, [B] holds 4. *)
Definition host_segs : list (text * Z) := [(txt "A", 16); (txt "S", 16); (txt "B", 4)].

Definition replies (evs : list event) : list reply :=
  flat_map (fun e => match e with EvSend r => [r] | _ => [] end) evs.

Definition shm_events (evs : list event) : list event :=
  filter (fun e => match e with EvOpen _ | EvRead _ | EvWrite _ | EvClose _
                              | EvUnlink _ => true | _ => false end) evs.

Definition live_mappings (s : dstate) : list text :=
  flat_map (fun o => match o with Some m => if sh_open m then [sh_file m] else []
                             | None => [] end) [shm s; m_shm s].

Definition session (s : dstate) : bool * jvalue * jvalue :=
  (match features s with Some _ => true | None => false end, curr_img_w s, curr_img_h s).

Definition run_sam (rs : list recv_result) := run json_loads sam mmap_fits (init host_segs) rs.

(** Decoded records and states used by the concrete instances. *)
Definition kvs_click_B : list (text * jvalue) :=
  [(txt "action", JStr (txt "click")); (txt "x", JInt 1); (txt "y", JInt 1);
   (txt "shm_name", JStr (txt "B"))].
Definition kvs_set_A2 : list (text * jvalue) :=
  [(txt "action", JStr (txt "set_image")); (txt "width", JInt 2); (txt "height", JInt 2);
   (txt "shm_name", JStr (txt "A"))].
Definition rec_set_Z2 : text :=
  jtxt "{'action': 'set_image', 'width': 2, 'height': 2, 'shm_name': 'Z'}".
Definition kvs_set_Z2 : list (text * jvalue) :=
  [(txt "action", JStr (txt "set_image")); (txt "width", JInt 2); (txt "height", JInt 2);
   (txt "shm_name", JStr (txt "Z"))].
(** A [shm_name] holding a NUL and a newline: it opens [A], and the
    messages that register and unregister it with the resource tracker also
    carry the line [REGISTER:/B:shared_memory]. *)
Definition rec_set_inject : text :=
  jtxt "{'action': 'set_image', 'width': 2, 'height': 2, 'shm_name': 'A\u0000:shared_memory\nREGISTER:/B'}".
(** A host segment of 1 PiB, more than the address space holds. *)
Definition huge_segs : list (text * Z) := [(txt "H", 2 ^ 50)].
Definition rec_set_H2 : text :=
  jtxt "{'action': 'set_image', 'width': 2, 'height': 2, 'shm_name': 'H'}".
(** The state after [set_image] 2x2 succeeded. *)
Definition loaded_2x2 : dstate :=
  with_features (Some (2, 2)) (with_curr_h (JInt 2) (with_curr_w (JInt 2) (init host_segs))).

(** ** Reading of the claims *)

(** The records a buffer holds, split at every newline, and what follows
    the last newline. *)
Fixpoint records (acc : text) (b : text) : list text * text :=
  match b with
  | [] => ([], rev acc)
  | c :: r =>
    if c =? 10 then let '(rs, rem) := records [] r in (rev acc :: rs, rem)
    else records (c :: acc) r
  end.

(** The record framed last from buffer [b], or [prev] when [b] completes no
    record. *)
Definition last_framed (prev : option text) (b : text) : option text :=
  match fst (records [] b) with [] => prev | rs => Some (last rs []) end.

(** A chunk the loop can decode. *)
Definition good_chunk (b : bytes) : Prop := b <> [] /\ utf8_decode b <> None.

(** An effect that is neither a reply nor an entry into the [try] block. *)
Definition silent (e : event) : Prop :=
  match e with EvSend _ | EvBlock _ => False | _ => True end.

Definition quiet {A} (m : M A) : Prop := forall s, let '(_, _, e) := m s in Forall silent e.

(** At most one reply, none when an exception escapes, no block entry. *)
Definition answers_once {A} (m : M A) : Prop :=
  forall s, let '(r, _, e) := m s in
    (forall l, ~ In (EvBlock l) e) /\ (r = None -> replies e = []) /\
    (List.length (replies e) <= 1)%nat.

(** A computation that leaves the observation [f] of the state as it was. *)
Definition pres {X A} (f : dstate -> X) (m : M A) : Prop :=
  forall s, let '(_, s', _) := m s in f s' = f s.

(** The fields no shared-memory operation touches. *)
Definition untouched (s : dstate) : text * option text * jvalue * jvalue * option (Z * Z) :=
  (buffer s, line s, curr_img_w s, curr_img_h s, features s).

(** The framing variables [buffer] and [line]. *)
Definition framing (s : dstate) : text * option text := (buffer s, line s).

(** The unmapping done by the [__del__] of the object a [SharedMemory]
    local held before it is reassigned. *)
Definition del_events (o : option shm_obj) : list event :=
  match o with
  | Some o' => if sh_open o' then [EvClose (sh_file o')] else []
  | None => []
  end.

(** * Properties *)

Example json_loads_click :
  json_loads (jtxt "{'action': 'click', 'x': 12, 'y': -3, 'shm_name': 'm'}")
  = Some (JObj [(txt "action", JStr (txt "click")); (txt "x", JInt 12);
                (txt "y", JInt (-3)); (txt "shm_name", JStr (txt "m"))]).
Proof. vm_compute. reflexivity. Qed.

Example utf8_decode_two_bytes : utf8_decode [195; 169] = Some [233].
Proof. reflexivity. Qed.

(** ** Concrete runs against the claims *)

(** C1 (code_bug): a [set_image] record and a [click] record in one chunk.
    The framing loop runs to the end of the chunk before the [try] block,
    which then handles only the last record: one [BY], and the [set_image]
    is never handled (the session stays unloaded with its initial size). *)
Theorem one_chunk_two_records_one_reply :
  let '(_, s, evs) := run_sam [Data (rec_set_A2 ++ nl ++ rec_click_B ++ nl)] in
  replies evs = [BY] /\ session s = (false, JInt 0, JInt 0).
Proof. vm_compute. split; reflexivity. Qed.

(** C2 (code_bug): the same [set_image] record in one chunk, and split after
    its tenth character.  The first chunk completes no record, the [try]
    block runs on the unbound [line] and answers [ER]; the replies differ. *)
Theorem split_record_extra_reply :
  replies (snd (run_sam [Data (rec_set_A2 ++ nl)])) = [OK] /\
  replies (snd (run_sam [Data (firstn 10 rec_set_A2);
                         Data (skipn 10 rec_set_A2 ++ nl)])) = [ER; OK].
Proof. vm_compute. split; reflexivity. Qed.

(** C3 (code_bug): after a 2x2 image is loaded from [A], a [set_image] of a
    4x4 image backed by the 16-byte segment [S] (64 bytes needed) answers
    [ER], but [curr_img_w] and [curr_img_h] already hold 4 while the
    predictor still holds the 2x2 image. *)
Theorem set_image_too_small_half_update :
  let '(_, s1, _) := run_sam [Data (rec_set_A2 ++ nl)] in
  session s1 = (true, JInt 2, JInt 2) /\
  match step json_loads sam mmap_fits s1 (Data (rec_set_S4 ++ nl)) with
  | Continue s2 evs =>
    replies evs = [ER] /\ session s2 = (true, JInt 4, JInt 4) /\
    features s2 = Some (2, 2)
  | _ => False
  end.
Proof. vm_compute. repeat split; reflexivity. Qed.

(** C4 (code_bug): a record whose action is not recognised gets no reply at
    all: the [if]/[elif] chain has no [else]. *)
Theorem unknown_action_no_reply :
  let '(_, s, evs) := run_sam [Data (rec_noop ++ nl)] in
  replies evs = [] /\ session s = session (init host_segs).
Proof. vm_compute. split; reflexivity. Qed.

(** C5 (code_bug): a [click] before any image, followed in the same chunk by
    another record, is never handled: no [BY] is sent (and no segment is
    touched). *)
Theorem click_before_image_dropped :
  let '(_, _, evs) := run_sam [Data (rec_click_B ++ nl ++ rec_noop ++ nl)] in
  replies evs = [] /\ shm_events evs = [].
Proof. vm_compute. split; reflexivity. Qed.

(** C6 (code_bug): a chunk that is not UTF-8 raises [UnicodeDecodeError]
    outside the [try]: no [ER] is sent and the process exits with status 1. *)
Theorem undecodable_chunk_ends_process :
  step json_loads sam mmap_fits (init host_segs) (Data [255; 10]) = Crashed (init host_segs) [] /\
  main_exit json_loads sam mmap_fits true true host_segs [Data [255; 10]; Data []] = Some 1.
Proof. vm_compute. split; reflexivity. Qed.

(** C7 (code_bug): a [set_image] whose [np.ndarray] fails leaves the mapping
    of [S] open in the local [shm]; it is still mapped after the next
    command. *)
Theorem failed_set_image_keeps_mapping :
  let '(_, s, evs) := run_sam [Data (rec_set_S4 ++ nl); Data (rec_click_B ++ nl)] in
  replies evs = [ER; BY] /\ live_mappings s = [txt "S"].
Proof. vm_compute. split; reflexivity. Qed.

(** C9 (counterexample): with the checkpoint present, a failing [bind] (port
    in use) ends the process with status 1 before any connection exists, and
    so does a failing [recv]. *)
Theorem exit_status_not_zero_without_startup_failure :
  main_exit json_loads sam mmap_fits true false host_segs [Data []] = Some 1 /\
  main_exit json_loads sam mmap_fits true true host_segs [RecvError] = Some 1.
Proof. split; reflexivity. Qed.

(** C10 (code_bug): a nonempty chunk that is not UTF-8 ends the loop before
    the [try] block runs: no block execution, no reply. *)
Theorem undecodable_chunk_no_block :
  step json_loads sam mmap_fits (init host_segs) (Data [255]) = Crashed (init host_segs) [].
Proof. reflexivity. Qed.

(** ** The bridge can destroy the host's segments *)

(** C8 (code_bug): two [set_image] commands that each destroy a host
    segment.  The [shm_name] [A\u0000:shared_memory\nREGISTER:/B] opens
    [A] (C stops at the NUL) and is answered [OK], but the messages that
    register and unregister it with the resource tracker carry a second line
    [REGISTER:/B:shared_memory]: [B] stays in the tracker's cache, and the
    tracker unlinks it when the daemon ends.  A segment of [2^50] bytes
    cannot be mapped; [SharedMemory] then unlinks it at once and the
    command is answered [ER]. *)
Theorem bridge_destroys_host_segments :
  (let '(_, s, evs) := run_sam [Data (rec_set_inject ++ nl)] in
   replies evs = [OK] /\
   shm_events evs = [EvOpen (txt "A"); EvRead (txt "A"); EvClose (txt "A")] /\
   segments s = host_segs /\
   segments_after_exit s = [(txt "A", 16); (txt "S", 16)]) /\
  (let '(_, s, evs) := run json_loads sam mmap_fits (init huge_segs) [Data (rec_set_H2 ++ nl)] in
   replies evs = [ER] /\ shm_events evs = [EvOpen (txt "H"); EvUnlink (txt "H")] /\
   segments s = []).
Proof. vm_compute. repeat split; reflexivity. Qed.

Lemma text_eqb_refl t : text_eqb t t = true.
Proof. induction t; simpl; [reflexivity|]. rewrite Z.eqb_refl. exact IHt. Qed.

(** ** The loop only ends on a closed peer, a failing read or a bad chunk *)

Lemma block_total ld pr mm s : exists s' e, block ld pr mm s = (Some tt, s', e).
Proof.
  unfold block, bind, gets, emit, try_except.
  destruct (handle ld pr mm _) as [[[u|] s1] e1]; simpl; eauto.
Qed.


Lemma step_good ld pr mm s b :
  good_chunk b -> exists s' e, step ld pr mm s (Data b) = Continue s' e.
Proof.
  intros [Hne Hd]. unfold step.
  destruct b as [|x bs]; [congruence|].
  destruct (utf8_decode (x :: bs)) as [t|]; [|congruence].
  destruct (frame (line s) (buffer s ++ t)) as [l buf].
  destruct (block_total ld pr mm (with_frame l buf s)) as (s' & e & ->). eauto.
Qed.

Lemma run_good_prefix ld pr mm s chunks rest :
  Forall good_chunk chunks ->
  exists s' e, run ld pr mm s (map Data chunks ++ rest) =
               let '(k, s'', e') := run ld pr mm s' rest in (k, s'', e ++ e').
Proof.
  revert s. induction chunks as [|b chunks IH]; intros s Hc; cbn [map app run].
  - exists s, []. destruct (run ld pr mm s rest) as [[k s''] e']. reflexivity.
  - inversion Hc as [|? ? Hb Hcs]; subst.
    destruct (step_good ld pr mm s b Hb) as (s1 & e1 & ->).
    destruct (IH s1 Hcs) as (s2 & e2 & ->).
    exists s2, (e1 ++ e2).
    destruct (run ld pr mm s2 rest) as [[k s''] e']. rewrite app_assoc. reflexivity.
Qed.

(** C9 (corrected): without the checkpoint the process exits with status 1;
    with it, a failing [bind] exits with status 1; after any number of
    nonempty UTF-8 chunks, an empty read (the peer closed the connection)
    ends the process with status 0 and a failing read with status 1. *)
Theorem main_exit_status ld pr mm segs bound chunks rs :
  Forall good_chunk chunks ->
  main_exit ld pr mm false bound segs rs = Some 1 /\
  main_exit ld pr mm true false segs rs = Some 1 /\
  main_exit ld pr mm true true segs (map Data chunks ++ Data [] :: rs) = Some 0 /\
  main_exit ld pr mm true true segs (map Data chunks ++ RecvError :: rs) = Some 1.
Proof.
  intros Hc. unfold main_exit. simpl.
  split; [reflexivity|]. split; [reflexivity|].
  split.
  - destruct (run_good_prefix ld pr mm (init segs) chunks (Data [] :: rs) Hc) as (s & e & ->).
    reflexivity.
  - destruct (run_good_prefix ld pr mm (init segs) chunks (RecvError :: rs) Hc) as (s & e & ->).
    reflexivity.
Qed.

Lemma main_exit_status_witness :
  Forall good_chunk [rec_set_A2 ++ nl] /\
  main_exit json_loads sam mmap_fits false true host_segs [] = Some 1 /\
  main_exit json_loads sam mmap_fits true false host_segs [] = Some 1 /\
  main_exit json_loads sam mmap_fits true true host_segs (map Data [rec_set_A2 ++ nl] ++ [Data []]) = Some 0 /\
  main_exit json_loads sam mmap_fits true true host_segs (map Data [rec_set_A2 ++ nl] ++ [RecvError]) = Some 1.
Proof.
  assert (H : Forall good_chunk [rec_set_A2 ++ nl]).
  { constructor; [split; [discriminate | vm_compute; discriminate] | constructor]. }
  split; [exact H|].
  apply (main_exit_status json_loads sam mmap_fits host_segs true [rec_set_A2 ++ nl] []); exact H.
Defined.

(** ** The [try] block runs once per chunk *)

(** A [click] while no image is loaded only answers [BY]. *)
Lemma click_unloaded_busy pr mm cmd s :
  features s = None -> click_branch pr mm cmd s = (Some tt, s, [EvSend BY]).
Proof. intros H. unfold click_branch, bind, gets. rewrite H. reflexivity. Qed.

(** A decoded object whose action is neither [set_image] nor [click] is
    passed over without any effect. *)
Lemma handle_other_action ld pr mm s t kvs :
  line s = Some t -> ld t = Some (JObj kvs) ->
  is_action (obj_lookup (txt "action") kvs) "set_image" = false ->
  is_action (obj_lookup (txt "action") kvs) "click" = false ->
  handle ld pr mm s = (Some tt, s, []).
Proof.
  intros Hl Hd H1 H2. unfold handle, bind, gets, dict_get. rewrite Hl, Hd.
  simpl. rewrite H1, H2. reflexivity.
Qed.

Lemma records_no_nl acc b : split_nl b = None -> records acc b = ([], rev acc ++ b).
Proof.
  revert acc. induction b as [|c r IH]; intros acc H; simpl in *.
  - rewrite app_nil_r. reflexivity.
  - destruct (c =? 10); [discriminate|].
    destruct (split_nl r) as [[? ?]|]; [discriminate|].
    rewrite IH by reflexivity. simpl. rewrite <- app_assoc. reflexivity.
Qed.

Lemma records_nl acc b l r :
  split_nl b = Some (l, r) ->
  records acc b = (let '(rs, rem) := records [] r in ((rev acc ++ l) :: rs, rem)) /\
  (List.length r < List.length b)%nat.
Proof.
  revert acc l. induction b as [|c b IH]; intros acc l H; simpl in *; [discriminate|].
  destruct (c =? 10).
  - inversion H; subst. rewrite app_nil_r. split; [reflexivity|lia].
  - destruct (split_nl b) as [[l' r']|] eqn:E; [|discriminate].
    inversion H; subst.
    destruct (IH (c :: acc) l' eq_refl) as [-> Hlt]. simpl.
    rewrite <- app_assoc. split; [reflexivity|lia].
Qed.

Lemma frame_loop_records fuel prev b :
  (List.length b < fuel)%nat ->
  frame_loop fuel prev b = (last_framed prev b, snd (records [] b)).
Proof.
  revert prev b. induction fuel as [|f IH]; intros prev b Hf; [lia|].
  simpl. destruct (split_nl b) as [[l r]|] eqn:E.
  - destruct (records_nl [] b l r E) as [Hr Hlt].
    rewrite IH by lia. unfold last_framed. rewrite Hr. simpl.
    destruct (records [] r) as [rs rem]. simpl.
    destruct rs; reflexivity.
  - unfold last_framed. rewrite (records_no_nl [] b E). reflexivity.
Qed.

Lemma frame_records prev b : frame prev b = (last_framed prev b, snd (records [] b)).
Proof. apply frame_loop_records. lia. Qed.

Lemma quiet_bind {A B} (m : M A) (k : A -> M B) :
  quiet m -> (forall a, quiet (k a)) -> quiet (bind m k).
Proof.
  intros Hm Hk s. unfold bind. specialize (Hm s).
  destruct (m s) as [[[a|] s1] e1]; [|exact Hm].
  specialize (Hk a s1). destruct (k a s1) as [[r s2] e2]. apply Forall_app; auto.
Qed.

Lemma replies_silent e : Forall silent e -> replies e = [].
Proof. induction 1 as [|x e Hx _ IH]; [reflexivity|]. destruct x; simpl in *; tauto. Qed.

Lemma no_block_silent e l : Forall silent e -> ~ In (EvBlock l) e.
Proof. intros H Hin. rewrite Forall_forall in H. exact (H _ Hin). Qed.

Lemma replies_app e1 e2 : replies (e1 ++ e2) = replies e1 ++ replies e2.
Proof. unfold replies. apply flat_map_app. Qed.

Lemma answers_quiet {A} (m : M A) : quiet m -> answers_once m.
Proof.
  intros Hm s. specialize (Hm s). destruct (m s) as [[r s1] e].
  rewrite (replies_silent e Hm). split; [intros l; apply no_block_silent; exact Hm|]. simpl. auto.
Qed.

Lemma answers_send r : answers_once (emit (EvSend r)).
Proof. intros s. simpl. split; [intros l [H|[]]; discriminate|]. split; [discriminate|auto]. Qed.

Lemma answers_bind {A B} (m : M A) (k : A -> M B) :
  quiet m -> (forall a, answers_once (k a)) -> answers_once (bind m k).
Proof.
  intros Hm Hk s. unfold bind. specialize (Hm s).
  destruct (m s) as [[[a|] s1] e1].
  - specialize (Hk a s1). destruct (k a s1) as [[r s2] e2].
    destruct Hk as (Hb & Hn & Hl).
    rewrite replies_app, (replies_silent e1 Hm). simpl.
    split; [|auto]. intros l Hin. apply in_app_or in Hin as [Hin|Hin].
    + exact (no_block_silent e1 l Hm Hin).
    + exact (Hb l Hin).
  - rewrite (replies_silent e1 Hm). split; [intros l; apply no_block_silent; exact Hm|].
    simpl. auto.
Qed.

Lemma quiet_ret {A} (a : A) : quiet (ret a).
Proof. intros s. constructor. Qed.
Lemma quiet_raise {A} : quiet (@raise A).
Proof. intros s. constructor. Qed.
Lemma quiet_gets {A} (f : dstate -> A) : quiet (gets f).
Proof. intros s. constructor. Qed.
Lemma quiet_modify f : quiet (modify f).
Proof. intros s. constructor. Qed.
Lemma quiet_emit e : silent e -> quiet (emit e).
Proof. intros H s. repeat constructor. exact H. Qed.

Create HintDb quiet_db.
#[local] Hint Resolve quiet_ret quiet_raise quiet_gets quiet_modify : quiet_db.

Ltac quiet_tac :=
  repeat match goal with
  | |- quiet (bind _ _) => apply quiet_bind; [|intro]
  | |- quiet (emit _) => apply quiet_emit; simpl; exact I
  | |- quiet (match ?x with _ => _ end) => destruct x
  | |- quiet (if ?b then _ else _) => destruct b
  | |- quiet _ => solve [auto with quiet_db]
  | |- quiet (?f _ _ _) => unfold f
  | |- quiet (?f _ _) => unfold f
  | |- quiet (?f _) => unfold f
  end.

Lemma quiet_getitem cmd k : quiet (getitem cmd k).
Proof. quiet_tac. Qed.
Lemma quiet_dict_get cmd k : quiet (dict_get cmd k).
Proof. quiet_tac. Qed.
Lemma quiet_ndarray sh n : quiet (ndarray sh n).
Proof. quiet_tac. Qed.
Lemma quiet_SharedMemory mm nm : quiet (SharedMemory mm nm).
Proof. unfold SharedMemory. quiet_tac. Qed.
Lemma quiet_assign_local v o : quiet (assign_local v o).
Proof. unfold assign_local. quiet_tac. Qed.
Lemma quiet_close_local v : quiet (close_local v).
Proof. unfold close_local. quiet_tac. Qed.
Lemma quiet_predictor_set_image pr h w : quiet (predictor_set_image pr h w).
Proof. unfold predictor_set_image. quiet_tac. Qed.

#[local] Hint Resolve quiet_getitem quiet_dict_get quiet_ndarray quiet_SharedMemory
  quiet_assign_local quiet_close_local quiet_predictor_set_image : quiet_db.

Ltac answers_step :=
  match goal with
  | |- answers_once (emit (EvSend _)) => apply answers_send
  | |- answers_once (bind _ _) => apply answers_bind; [solve [quiet_tac] | intro]
  | |- answers_once (match ?x with _ => _ end) => destruct x
  | |- answers_once (if ?b then _ else _) => destruct b
  | |- answers_once _ => apply answers_quiet; solve [quiet_tac]
  end.

Lemma answers_set_image_branch pr mm cmd : answers_once (set_image_branch pr mm cmd).
Proof. unfold set_image_branch. repeat answers_step. Qed.
Lemma answers_click_branch pr mm cmd : answers_once (click_branch pr mm cmd).
Proof. unfold click_branch. repeat answers_step. Qed.
Lemma answers_handle ld pr mm : answers_once (handle ld pr mm).
Proof.
  unfold handle. repeat answers_step.
  - apply answers_set_image_branch.
  - apply answers_click_branch.
Qed.

Lemma block_events ld pr mm s :
  exists s' rest, block ld pr mm s = (Some tt, s', EvBlock (line s) :: rest) /\
    (forall l, ~ In (EvBlock l) rest) /\ (List.length (replies rest) <= 1)%nat /\
    (line s = None -> replies rest = [ER]).
Proof.
  pose proof (answers_handle ld pr mm s) as H.
  unfold block, bind, gets, emit, try_except. simpl.
  destruct (handle ld pr mm s) as [[[u|] s1] e1] eqn:E; destruct H as (Hb & Hn & Hl).
  - eexists _, _. split; [reflexivity|]. split; [exact Hb|]. split; [exact Hl|].
    intros Hline. unfold handle, bind, gets in E. rewrite Hline in E. discriminate.
  - eexists _, _. split; [reflexivity|].
    rewrite replies_app, (Hn eq_refl). simpl.
    split; [|split; [auto|reflexivity]].
    intros l Hin. apply in_app_or in Hin as [Hin|[Hin|[]]]; [exact (Hb l Hin)|discriminate].
Qed.

(** Every nonempty UTF-8 chunk runs the [try] block once, on the record
    framed last (or on the earlier [line] when the chunk completes none),
    and sends at most one reply; [ER] while no record was ever framed. *)
Theorem chunk_runs_block_once ld pr mm s b t :
  b <> [] -> utf8_decode b = Some t ->
  exists s' rest,
    step ld pr mm s (Data b) =
      Continue s' (EvBlock (last_framed (line s) (buffer s ++ t)) :: rest) /\
    (forall l, ~ In (EvBlock l) rest) /\ (List.length (replies rest) <= 1)%nat /\
    (last_framed (line s) (buffer s ++ t) = None -> replies rest = [ER]).
Proof.
  intros Hne Hd. unfold step.
  destruct b as [|x bs]; [congruence|]. rewrite Hd.
  rewrite frame_records.
  destruct (block_events ld pr mm (with_frame (last_framed (line s) (buffer s ++ t))
                                  (snd (records [] (buffer s ++ t))) s))
    as (s' & rest & -> & H). simpl in H.
  exists s', rest. auto.
Qed.

(** ** What each computation leaves alone *)

Section Pres.

Context {X : Type} (f : dstate -> X).

Lemma pres_ret {A} (a : A) : pres f (ret a).
Proof. intros s. reflexivity. Qed.
Lemma pres_raise {A} : pres f (@raise A).
Proof. intros s. reflexivity. Qed.
Lemma pres_gets {A} (g : dstate -> A) : pres f (gets g).
Proof. intros s. reflexivity. Qed.
Lemma pres_emit e : pres f (emit e).
Proof. intros s. reflexivity. Qed.
Lemma pres_modify g : (forall s, f (g s) = f s) -> pres f (modify g).
Proof. intros H s. exact (H s). Qed.

Lemma pres_bind {A B} (m : M A) (k : A -> M B) :
  pres f m -> (forall a, pres f (k a)) -> pres f (bind m k).
Proof.
  intros Hm Hk s. unfold bind. specialize (Hm s).
  destruct (m s) as [[[a|] s1] e1]; [|exact Hm].
  specialize (Hk a s1). destruct (k a s1) as [[r s2] e2]. congruence.
Qed.

Lemma pres_try m h : pres f m -> pres f h -> pres f (try_except m h).
Proof.
  intros Hm Hh s. unfold try_except. specialize (Hm s).
  destruct (m s) as [[[u|] s1] e1]; [exact Hm|].
  specialize (Hh s1). destruct (h s1) as [[r s2] e2]. congruence.
Qed.

End Pres.

Create HintDb pres_db.
#[local] Hint Resolve pres_ret pres_raise pres_gets pres_emit : pres_db.

Ltac pres_tac :=
  repeat match goal with
  | |- pres _ (bind _ _) => apply pres_bind; [|intro]
  | |- pres _ (try_except _ _) => apply pres_try
  | |- pres _ (modify _) =>
    apply pres_modify; intro;
    repeat match goal with |- context [if ?b then _ else _] => destruct b end;
    reflexivity
  | |- pres _ (match ?x with _ => _ end) => destruct x
  | |- pres _ (if ?b then _ else _) => destruct b
  | |- pres _ _ => solve [auto with pres_db]
  | |- pres _ (?g _ _ _) => unfold g
  | |- pres _ (?g _ _) => unfold g
  | |- pres _ (?g _) => unfold g
  end.

Lemma pres_SharedMemory mm nm : pres untouched (SharedMemory mm nm).
Proof. unfold SharedMemory. pres_tac. Qed.
Lemma pres_assign_local v o : pres untouched (assign_local v o).
Proof. unfold assign_local. pres_tac. Qed.
Lemma pres_close_local v : pres untouched (close_local v).
Proof. unfold close_local. pres_tac. Qed.
Lemma pres_getitem {X} (f : dstate -> X) cmd k : pres f (getitem cmd k).
Proof. unfold getitem. pres_tac. Qed.
Lemma pres_dict_get {X} (f : dstate -> X) cmd k : pres f (dict_get cmd k).
Proof. unfold dict_get. pres_tac. Qed.
Lemma pres_ndarray {X} (f : dstate -> X) sh n : pres f (ndarray sh n).
Proof. unfold ndarray. pres_tac. Qed.

#[local] Hint Resolve pres_SharedMemory pres_assign_local pres_close_local
  pres_getitem pres_dict_get pres_ndarray : pres_db.

Lemma pres_click_branch pr mm cmd : pres untouched (click_branch pr mm cmd).
Proof. unfold click_branch. pres_tac. Qed.

(** Nothing in the [try] block touches the framing variables. *)
Lemma pres_framing_untouched {A} (m : M A) : pres untouched m -> pres framing m.
Proof.
  intros H s. specialize (H s). destruct (m s) as [[r s'] e].
  unfold untouched, framing in *. congruence.
Qed.

Lemma pres_framing_SharedMemory mm nm : pres framing (SharedMemory mm nm).
Proof. apply pres_framing_untouched, pres_SharedMemory. Qed.
Lemma pres_framing_assign_local v o : pres framing (assign_local v o).
Proof. apply pres_framing_untouched, pres_assign_local. Qed.
Lemma pres_framing_close_local v : pres framing (close_local v).
Proof. apply pres_framing_untouched, pres_close_local. Qed.
Lemma pres_framing_click_branch pr mm cmd : pres framing (click_branch pr mm cmd).
Proof. apply pres_framing_untouched, pres_click_branch. Qed.

#[local] Hint Resolve pres_framing_SharedMemory pres_framing_assign_local
  pres_framing_close_local pres_framing_click_branch : pres_db.

Lemma pres_framing_set_image_branch pr mm cmd : pres framing (set_image_branch pr mm cmd).
Proof. unfold set_image_branch, predictor_set_image. pres_tac. Qed.

#[local] Hint Resolve pres_framing_set_image_branch : pres_db.

Lemma pres_framing_block ld pr mm : pres framing (block ld pr mm).
Proof. unfold block, handle. pres_tac. Qed.

(** ** Framing, replies and the shared-memory bridge, command by command *)

(** A nonempty chunk that decodes runs the [try] block on the state framed
    from the buffer, and the block leaves [buffer] and [line] as they were. *)
Lemma step_decoded ld pr mm s b t :
  b <> [] -> utf8_decode b = Some t ->
  exists s' e, step ld pr mm s (Data b) = Continue s' e /\
    block ld pr mm (with_frame (last_framed (line s) (buffer s ++ t))
                            (snd (records [] (buffer s ++ t))) s) = (Some tt, s', e) /\
    buffer s' = snd (records [] (buffer s ++ t)) /\
    line s' = last_framed (line s) (buffer s ++ t).
Proof.
  intros Hne Hd. unfold step.
  destruct b as [|x bs]; [congruence|]. rewrite Hd, frame_records.
  set (s0 := with_frame _ _ s).
  destruct (block_total ld pr mm s0) as (s' & e & E). rewrite E.
  pose proof (pres_framing_block ld pr mm s0) as H. rewrite E in H.
  unfold framing in H. simpl in H. inversion H.
  exists s', e. auto.
Qed.

(** Framing a newline-free prefix only extends the pending record. *)
Lemma records_shift acc l b :
  ~ In 10 l -> records acc (l ++ b) = records (rev l ++ acc) b.
Proof.
  revert acc. induction l as [|c l IH]; intros acc Hl; [reflexivity|].
  simpl. destruct (Z.eqb_spec c 10) as [->|Hc]; [exfalso; apply Hl; left; reflexivity|].
  rewrite IH by (intro; apply Hl; right; assumption).
  rewrite <- app_assoc. reflexivity.
Qed.

(** Framing a concatenation frames the first part, then what is left of it
    followed by the second. *)
Lemma records_app acc x y :
  ~ In 10 acc ->
  records acc (x ++ y) =
    let '(rs1, rem1) := records acc x in
    let '(rs2, rem2) := records [] (rem1 ++ y) in (rs1 ++ rs2, rem2).
Proof.
  revert acc. induction x as [|c x IH]; intros acc Hacc; simpl.
  - rewrite records_shift by (rewrite <- in_rev; exact Hacc).
    rewrite rev_involutive, app_nil_r.
    destruct (records acc y). reflexivity.
  - destruct (c =? 10) eqn:Hc.
    + rewrite (IH [] (fun h => h)).
      destruct (records [] x) as [rs1 rem1].
      destruct (records [] (rem1 ++ y)) as [rs2 rem2]. reflexivity.
    + apply IH. intros [H|H]; [subst; discriminate|contradiction].
Qed.

Lemma records_rem_no_nl acc b : ~ In 10 acc -> ~ In 10 (snd (records acc b)).
Proof.
  revert acc. induction b as [|c b IH]; intros acc Hacc; simpl.
  - rewrite <- in_rev. exact Hacc.
  - destruct (c =? 10) eqn:Hc.
    + specialize (IH [] (fun h => h)). destruct (records [] b). exact IH.
    + apply IH. intros [H|H]; [subst; discriminate|contradiction].
Qed.

(** The text left in the buffer is a suffix of the framed text, after its
    last newline. *)
Lemma records_split acc b :
  ~ In 10 acc ->
  exists pre, rev acc ++ b = pre ++ snd (records acc b) /\
              (pre = [] \/ exists p, pre = p ++ [10]).
Proof.
  revert acc. induction b as [|c b IH]; intros acc Hacc; simpl.
  - exists []. rewrite app_nil_r. auto.
  - destruct (Z.eqb_spec c 10) as [->|Hc].
    + destruct (IH [] (fun h => h)) as (pre & Hb & Hp). simpl in Hb.
      destruct (records [] b) as [rs rem]. simpl in *.
      exists (rev acc ++ 10 :: pre). split.
      * rewrite Hb, <- app_assoc. reflexivity.
      * right. destruct Hp as [->|(p & ->)].
        -- exists (rev acc). reflexivity.
        -- exists (rev acc ++ 10 :: p). rewrite <- app_assoc. reflexivity.
    + destruct (IH (c :: acc)) as (pre & Hb & Hp).
      { intros [H|H]; [congruence|contradiction]. }
      exists pre. simpl in Hb. rewrite <- app_assoc in Hb. auto.
Qed.

Lemma last_framed_app prev x y :
  last_framed (last_framed prev x) (snd (records [] x) ++ y) = last_framed prev (x ++ y).
Proof.
  unfold last_framed. rewrite (records_app [] x y (fun h => h)).
  destruct (records [] x) as [rs1 rem1]. simpl.
  destruct (records [] (rem1 ++ y)) as [rs2 rem2]. simpl.
  induction rs2 as [|a l' _] using rev_ind.
  - rewrite app_nil_r. reflexivity.
  - assert (Hl : forall (d : option text) l,
               match l ++ [a] with [] => d | rs => Some (last rs []) end = Some a).
    { intros d [|z l]; [reflexivity|].
      change (Some (last ((z :: l) ++ [a]) []) = Some a). rewrite last_last. reflexivity. }
    rewrite app_assoc, !Hl. reflexivity.
Qed.

Lemma records_app_rem x y :
  snd (records [] (snd (records [] x) ++ y)) = snd (records [] (x ++ y)).
Proof.
  rewrite (records_app [] x y (fun h => h)).
  destruct (records [] x) as [rs1 rem1]. simpl.
  destruct (records [] (rem1 ++ y)). reflexivity.
Qed.

Lemma records_blank y : exists rs, records [] (y ++ [10; 10]) = (rs ++ [[]], []).
Proof.
  rewrite (records_app [] y [10; 10] (fun h => h)).
  pose proof (records_rem_no_nl [] y (fun h => h)) as Hn.
  destruct (records [] y) as [rs1 rem1]. simpl in Hn.
  rewrite records_shift by exact Hn. simpl. rewrite app_nil_r, rev_involutive.
  exists (rs1 ++ [rem1]). rewrite <- app_assoc. reflexivity.
Qed.

(** Decoding respects concatenation after a decodable prefix. *)
Lemma utf8_decode_app a b ta :
  utf8_decode a = Some ta -> utf8_decode (a ++ b) = option_map (app ta) (utf8_decode b).
Proof.
  revert ta. induction a as [a IH] using
    (well_founded_induction (Wf_nat.well_founded_ltof _ (@List.length Z))).
  intros ta H. destruct a as [|b1 r1].
  { simpl in H. inversion H; subst. simpl. destruct (utf8_decode b); reflexivity. }
  assert (IH' : forall r t, (List.length r < List.length (b1 :: r1))%nat ->
            utf8_decode r = Some t -> utf8_decode (r ++ b) = option_map (app t) (utf8_decode b))
    by (intros; apply IH; assumption).
  clear IH. cbn [app]. simpl in H |- *.
  repeat match goal with
  | H : context [if ?c then _ else _] |- _ => destruct c
  | H : context [match ?r with [] => _ | _ :: _ => _ end] |- _ =>
      match r with utf8_decode _ => fail 1 | _ => destruct r; cbn [app] end
  | H : option_map _ (utf8_decode ?r) = Some _ |- _ =>
      let E := fresh in
      destruct (utf8_decode r) eqn:E; [|discriminate];
      simpl in H; inversion H; subst;
      rewrite (IH' r _ ltac:(simpl; lia) E);
      destruct (utf8_decode b); reflexivity
  | H : None = Some _ |- _ => discriminate
  end.
Qed.

(** ** Attaching to a segment, step by step *)

Lemma existsb_ascii l : existsb (fun c => 128 <=? c) l = negb (forallb (fun c => c <? 128) l).
Proof.
  induction l as [|c l IH]; simpl; [reflexivity|]. rewrite IH.
  destruct (Z.leb_spec 128 c), (Z.ltb_spec c 128); try lia; reflexivity.
Qed.

Lemma split_on_none sep t : ~ In sep t -> split_on sep t = [t].
Proof.
  induction t as [|c t IH]; intros H; simpl; [reflexivity|].
  destruct (Z.eqb_spec c sep) as [->|]; [exfalso; apply H; left; reflexivity|].
  rewrite IH by (intro; apply H; right; assumption). reflexivity.
Qed.

Lemma split_on_app sep a b : ~ In sep a -> split_on sep (a ++ sep :: b) = a :: split_on sep b.
Proof.
  induction a as [|c a IH]; intros H; simpl; [rewrite Z.eqb_refl; reflexivity|].
  destruct (Z.eqb_spec c sep) as [->|]; [exfalso; apply H; left; reflexivity|].
  rewrite IH by (intro; apply H; right; assumption). reflexivity.
Qed.

(** The message of a [REGISTER] or [UNREGISTER] of a name without newline
    or colon is one line, which the tracker splits into its three fields. *)
Lemma tracker_feed_plain cmd nm cache :
  (cmd = txt "REGISTER" \/ cmd = txt "UNREGISTER") -> ~ In 10 nm -> ~ In 58 nm ->
  tracker_feed cache (cmd ++ [58] ++ nm ++ [58] ++ txt "shared_memory" ++ [10]) =
  if text_eqb cmd (txt "REGISTER") then
    if existsb (entry_eqb (txt "shared_memory", nm)) cache then cache
    else (txt "shared_memory", nm) :: cache
  else filter (fun e => negb (entry_eqb (txt "shared_memory", nm) e)) cache.
Proof.
  intros Hc H10 H58.
  assert (Hl : cmd ++ [58] ++ nm ++ [58] ++ txt "shared_memory" ++ [10] =
               (cmd ++ 58 :: nm ++ [58]) ++ txt "shared_memory" ++ [10])
    by (rewrite <- !app_assoc; cbn [app]; rewrite <- !app_assoc; reflexivity).
  assert (Hn10 : ~ In 10 ((cmd ++ 58 :: nm ++ [58]) ++ txt "shared_memory")).
  { intros H. apply in_app_or in H as [H|H]; [|vm_compute in H; intuition discriminate].
    apply in_app_or in H as [H|[H|H]]; [|discriminate|].
    - destruct Hc as [-> | ->]; vm_compute in H; intuition discriminate.
    - apply in_app_or in H as [H|[H|[]]]; [contradiction|discriminate]. }
  unfold tracker_feed. rewrite Hl, app_assoc, split_on_app by exact Hn10.
  simpl split_on. cbn [removelast fold_left].
  unfold tracker_line.
  assert (Hs : bytes_strip ((cmd ++ 58 :: nm ++ [58]) ++ txt "shared_memory") =
               (cmd ++ 58 :: nm ++ [58]) ++ txt "shared_memory").
  { assert (H1 : lstrip_ws ((cmd ++ 58 :: nm ++ [58]) ++ txt "shared_memory") =
                 (cmd ++ 58 :: nm ++ [58]) ++ txt "shared_memory")
      by (destruct Hc as [-> | ->]; reflexivity).
    assert (H2 : forall y, lstrip_ws (rev (txt "shared_memory") ++ y) =
                           rev (txt "shared_memory") ++ y) by reflexivity.
    unfold bytes_strip. rewrite H1, rev_app_distr, H2, <- rev_app_distr, rev_involutive.
    reflexivity. }
  rewrite Hs, <- app_assoc. cbn [app].
  rewrite split_on_app by (destruct Hc as [-> | ->]; vm_compute; intuition discriminate).
  rewrite <- app_assoc. cbn [app].
  rewrite split_on_app by exact H58.
  rewrite split_on_none by (vm_compute; intuition discriminate).
  cbv [existsb rtypes]. rewrite text_eqb_refl. rewrite !orb_true_r.
  destruct Hc as [-> | ->]; reflexivity.
Qed.

Lemma entry_eqb_refl e : entry_eqb e e = true.
Proof. destruct e. unfold entry_eqb. simpl. rewrite !text_eqb_refl. reflexivity. Qed.

Lemma tracker_send_plain cmd nm s :
  (cmd = txt "REGISTER" \/ cmd = txt "UNREGISTER") ->
  forallb (fun c => c <? 128) nm = true -> ~ In 10 nm -> ~ In 58 nm ->
  (List.length nm <= 486)%nat ->
  tracker_send cmd nm (txt "shared_memory") s =
    (Some tt, with_tracked (tracker_feed (tracked s)
                (cmd ++ [58] ++ nm ++ [58] ++ txt "shared_memory" ++ [10])) s, []).
Proof.
  intros Hc Ha H10 H58 Hl. unfold tracker_send. cbv zeta.
  assert (E : existsb (fun c => 128 <=? c) (cmd ++ [58] ++ nm ++ [58] ++ txt "shared_memory" ++ [10])
              = false)
    by (rewrite existsb_ascii, !forallb_app, Ha; destruct Hc as [-> | ->]; reflexivity).
  assert (L : (512 <? Z.of_nat (List.length (cmd ++ [58] ++ nm ++ [58] ++ txt "shared_memory" ++ [10])))
              = false).
  { apply Z.ltb_ge. rewrite !length_app.
    destruct Hc as [-> | ->]; cbn [List.length txt list_ascii_of_string map]; lia. }
  rewrite E, L. reflexivity.
Qed.

Lemma tracker_register_plain nm s :
  forallb (fun c => c <? 128) nm = true -> ~ In 10 nm -> ~ In 58 nm ->
  (List.length nm <= 486)%nat ->
  tracker_register nm s =
    (Some tt, with_tracked (if existsb (entry_eqb (txt "shared_memory", nm)) (tracked s)
                            then tracked s else (txt "shared_memory", nm) :: tracked s) s, []).
Proof.
  intros Ha H10 H58 Hl. unfold tracker_register.
  rewrite tracker_send_plain, tracker_feed_plain by auto.
  rewrite text_eqb_refl. reflexivity.
Qed.

Lemma tracker_unregister_plain nm s :
  forallb (fun c => c <? 128) nm = true -> ~ In 10 nm -> ~ In 58 nm ->
  (List.length nm <= 486)%nat ->
  tracker_unregister nm s =
    (Some tt, with_tracked (filter (fun e => negb (entry_eqb (txt "shared_memory", nm) e))
                             (tracked s)) s, []).
Proof.
  intros Ha H10 H58 Hl. unfold tracker_unregister.
  rewrite tracker_send_plain, tracker_feed_plain by auto. reflexivity.
Qed.

(** Attaching to an existing nonempty segment that fits in memory, under a
    plain ASCII name. *)
Lemma SharedMemory_ok mm n k sz s :
  shm_path (47 :: n) = Some k -> seg_lookup k (segments s) = Some sz -> sz <> 0 ->
  mm s sz = true ->
  forallb (fun c => c <? 128) n = true -> ~ In 10 n -> ~ In 58 n ->
  (List.length n <= 485)%nat ->
  SharedMemory mm (JStr n) s =
    (Some {| sh_name := 47 :: n; sh_file := k; sh_size := sz; sh_open := true |},
     with_tracked (if existsb (entry_eqb (txt "shared_memory", 47 :: n)) (tracked s)
                   then tracked s else (txt "shared_memory", 47 :: n) :: tracked s) s,
     [EvOpen k]).
Proof.
  intros Hp Hs Hz Hm Ha H10 H58 Hl.
  cbv beta iota zeta delta [SharedMemory shm_open fstat_size bind gets emit ret].
  rewrite Hp. cbv beta iota. rewrite Hs. cbv beta iota.
  try rewrite Hs. cbv beta iota. rewrite (proj2 (Z.eqb_neq _ _) Hz), Hm.
  rewrite tracker_register_plain.
  - reflexivity.
  - simpl. exact Ha.
  - intros [H|H]; [discriminate|contradiction].
  - intros [H|H]; [discriminate|contradiction].
  - simpl. lia.
Qed.

Lemma ndarray_ok shape ds sz s :
  as_dims shape = Some ds -> forallb (fun d => 0 <=? d) ds = true ->
  fold_left Z.mul (filter (fun d => negb (d =? 0)) ds) 1 <= intp_max ->
  fold_left Z.mul ds 1 <= sz ->
  ndarray shape sz s = (Some ds, s, []).
Proof.
  intros A B C D. unfold ndarray. rewrite A, B.
  rewrite (proj2 (Z.leb_le _ _) C), (proj2 (Z.leb_le _ _) D). reflexivity.
Qed.

Lemma as_dim_int z : 0 <= z <= intp_max -> as_dim (JInt z) = Some z.
Proof.
  intros H. unfold as_dim, intp_max in *.
  rewrite (proj2 (Z.leb_le (- (2 ^ 63 - 1) - 1) z) ltac:(lia)), (proj2 (Z.leb_le z (2 ^ 63 - 1)) ltac:(lia)). reflexivity.
Qed.

Lemma ndarray_hw4 h w sz s :
  0 < h -> 0 < w -> h * w * 4 <= sz -> h * w * 4 <= intp_max ->
  ndarray [JInt h; JInt w; JInt 4] sz s = (Some [h; w; 4], s, []).
Proof.
  intros Hh Hw Hs Hm. unfold intp_max in Hm. apply ndarray_ok.
  - cbn [as_dims]. rewrite !as_dim_int by (unfold intp_max; nia). reflexivity.
  - cbn [forallb]. rewrite (proj2 (Z.leb_le 0 h) ltac:(lia)), (proj2 (Z.leb_le 0 w) ltac:(lia)). reflexivity.
  - cbn [filter]. rewrite (proj2 (Z.eqb_neq h 0) ltac:(lia)), (proj2 (Z.eqb_neq w 0) ltac:(lia)).
    cbn [negb filter fold_left]. unfold intp_max. simpl (negb (4 =? 0)). cbv iota. cbn [fold_left]. lia.
  - cbn [fold_left]. lia.
Qed.

Lemma ndarray_hw h w sz s :
  0 < h -> 0 < w -> h * w <= sz -> h * w <= intp_max ->
  ndarray [JInt h; JInt w] sz s = (Some [h; w], s, []).
Proof.
  intros Hh Hw Hs Hm. unfold intp_max in Hm. apply ndarray_ok.
  - cbn [as_dims]. rewrite !as_dim_int by (unfold intp_max; nia). reflexivity.
  - cbn [forallb]. rewrite (proj2 (Z.leb_le 0 h) ltac:(lia)), (proj2 (Z.leb_le 0 w) ltac:(lia)). reflexivity.
  - cbn [filter]. rewrite (proj2 (Z.eqb_neq h 0) ltac:(lia)), (proj2 (Z.eqb_neq w 0) ltac:(lia)).
    cbn [negb filter fold_left]. unfold intp_max. lia.
  - cbn [fold_left]. lia.
Qed.

Lemma filter_register e tr :
  filter (fun x => negb (entry_eqb e x)) (if existsb (entry_eqb e) tr then tr else e :: tr)
  = filter (fun x => negb (entry_eqb e x)) tr.
Proof.
  destruct (existsb (entry_eqb e) tr); [reflexivity|].
  simpl. rewrite entry_eqb_refl. reflexivity.
Qed.

Lemma filter_entry_not_in e tr : ~ In e (filter (fun x => negb (entry_eqb e x)) tr).
Proof.
  intros H. apply filter_In in H as [_ H]. rewrite entry_eqb_refl in H. discriminate.
Qed.

(** A write into the mask segment is always followed by the [OK] reply. *)
Lemma click_write_ok pr mm cmd s n :
  let '(r, _, e) := click_branch pr mm cmd s in
  In (EvWrite n) e -> r = Some tt /\ replies e = [OK].
Proof.
  destruct s as [b l cw ch f o mo sg tr].
  unfold click_branch.
  cbv beta iota zeta delta [bind ret modify gets emit raise SharedMemory shm_open shm_unlink fstat_size tracker_send
    tracker_register tracker_unregister assign_local get_local put_local sm_close ndarray
    close_local with_m_shm with_tracked with_segments andb negb orb
    buffer line curr_img_w curr_img_h features shm m_shm segments tracked getitem].
  repeat (simpl; match goal with
  | |- context [match ?x with _ => _ end] =>
    lazymatch x with context [match _ with _ => _ end] => fail | _ => destruct x end
  end); simpl; intuition congruence.
Qed.

(** [set_image] never writes into a segment. *)
Lemma set_image_no_write pr mm cmd s n :
  let '(_, _, e) := set_image_branch pr mm cmd s in ~ In (EvWrite n) e.
Proof.
  destruct s as [b l cw ch f o mo sg tr].
  unfold set_image_branch, predictor_set_image.
  cbv beta iota zeta delta [bind ret modify gets emit raise SharedMemory shm_open shm_unlink fstat_size tracker_send
    tracker_register tracker_unregister assign_local get_local put_local sm_close ndarray
    close_local with_shm with_tracked with_segments with_curr_w with_curr_h with_features
    andb negb orb buffer line curr_img_w curr_img_h features shm m_shm segments tracked getitem].
  repeat (simpl; match goal with
  | |- context [match ?x with _ => _ end] =>
    lazymatch x with context [match _ with _ => _ end] => fail | _ => destruct x end
  end); simpl; intuition congruence.
Qed.

(** X1: after a nonempty chunk that decodes, the buffer holds exactly the
    text after the last newline of the old buffer followed by the chunk's
    text: it contains no newline, and what was consumed is empty or ends in a
    newline. *)
Theorem chunk_leaves_partial_record ld pr mm s b t :
  b <> [] -> utf8_decode b = Some t ->
  exists s' e pre, step ld pr mm s (Data b) = Continue s' e /\
    buffer s ++ t = pre ++ buffer s' /\ ~ In 10 (buffer s') /\
    (pre = [] \/ exists p, pre = p ++ [10]).
Proof.
  intros Hne Hd.
  destruct (step_decoded ld pr mm s b t Hne Hd) as (s' & e & Hs & _ & Hb & _).
  destruct (records_split [] (buffer s ++ t) (fun h => h)) as (pre & Hpre & Hp).
  exists s', e, pre. rewrite Hb. split; [exact Hs|]. split; [exact Hpre|].
  split; [apply records_rem_no_nl; intros []|exact Hp].
Qed.

(** X2: when the buffer holds no newline and a chunk decodes to [q] followed
    by one newline, the block runs on the record [buffer ++ q], as if that
    record had been received whole, and the buffer is left empty. *)
Theorem chunk_completes_one_record ld pr mm s b q :
  ~ In 10 (buffer s) -> utf8_decode b = Some (q ++ [10]) -> ~ In 10 q ->
  exists s' e, block ld pr mm (with_frame (Some (buffer s ++ q)) [] s) = (Some tt, s', e) /\
    step ld pr mm s (Data b) = Continue s' e /\ buffer s' = [] /\ line s' = Some (buffer s ++ q).
Proof.
  intros Hbuf Hd Hq.
  assert (Hne : b <> []).
  { intros ->. simpl in Hd. inversion Hd as [H]. symmetry in H.
    apply app_eq_nil in H as [_ H]. discriminate. }
  assert (Hr : records [] (buffer s ++ q ++ [10]) = ([buffer s ++ q], [])).
  { rewrite app_assoc, records_shift.
    - simpl. rewrite app_nil_r, rev_involutive. reflexivity.
    - intros H. apply in_app_or in H as [H|H]; contradiction. }
  destruct (step_decoded ld pr mm s b _ Hne Hd) as (s' & e & Hs & Hblk & Hb & Hl).
  unfold last_framed in Hblk, Hl. rewrite Hr in Hblk, Hb, Hl. simpl in Hblk, Hb, Hl.
  exists s', e. auto.
Qed.

(** X3: a chunk whose text ends in two newlines leaves the empty record as
    [line]; [json.loads] fails on the empty string, so the answer is a single [ER] whatever
    the records before it were, and only [buffer] and [line] change. *)
Theorem blank_last_record_error pr mm s b x :
  utf8_decode b = Some (x ++ [10; 10]) ->
  step json_loads pr mm s (Data b) =
    Continue (with_frame (Some []) [] s) [EvBlock (Some []); EvSend ER].
Proof.
  intros Hd.
  assert (Hne : b <> []).
  { intros ->. simpl in Hd. inversion Hd as [H]. symmetry in H.
    apply app_eq_nil in H as [_ H]. discriminate. }
  unfold step. destruct b as [|c bs]; [congruence|]. rewrite Hd, frame_records.
  destruct (records_blank (buffer s ++ x)) as [rs Hr].
  rewrite <- app_assoc in Hr. simpl in Hr.
  assert (Hl : last_framed (line s) (buffer s ++ x ++ [10; 10]) = Some []).
  { unfold last_framed. rewrite Hr. simpl. destruct rs as [|z l]; [reflexivity|].
    change (Some (last ((z :: l) ++ [[]]) []) = Some []). rewrite last_last. reflexivity. }
  rewrite Hl, Hr. reflexivity.
Qed.

(** X4: a chunk without a newline (on a buffer without one) is appended to
    the buffer and the block runs again on the previous [line]. *)
Theorem chunk_without_newline_repeats_line ld pr mm s b t :
  b <> [] -> utf8_decode b = Some t -> ~ In 10 (buffer s) -> ~ In 10 t ->
  exists s' e, block ld pr mm (with_frame (line s) (buffer s ++ t) s) = (Some tt, s', e) /\
    step ld pr mm s (Data b) = Continue s' e /\ buffer s' = buffer s ++ t /\ line s' = line s.
Proof.
  intros Hne Hd Hbuf Ht.
  assert (Hr : records [] (buffer s ++ t) = ([], buffer s ++ t)).
  { rewrite <- (app_nil_r (buffer s ++ t)) at 1. rewrite records_shift.
    - simpl. rewrite app_nil_r, rev_involutive. reflexivity.
    - intros H. apply in_app_or in H as [H|H]; contradiction. }
  destruct (step_decoded ld pr mm s b t Hne Hd) as (s' & e & Hs & Hblk & Hb & Hl).
  unfold last_framed in Hblk, Hl. rewrite Hr in Hblk, Hb, Hl. simpl in Hblk, Hb, Hl.
  exists s', e. auto.
Qed.

(** X5: splitting a chunk in two, at a point where the first part decodes,
    leaves the same [buffer] and [line] after both parts as after the whole
    chunk. *)
Theorem chunk_boundaries_keep_framing ld pr mm s a b ta tb :
  a <> [] -> b <> [] -> utf8_decode a = Some ta -> utf8_decode b = Some tb ->
  exists s1 e1 s2 e2 s3 e3,
    step ld pr mm s (Data a) = Continue s1 e1 /\ step ld pr mm s1 (Data b) = Continue s2 e2 /\
    step ld pr mm s (Data (a ++ b)) = Continue s3 e3 /\
    buffer s2 = buffer s3 /\ line s2 = line s3.
Proof.
  intros Ha Hb Hda Hdb.
  assert (Hab : a ++ b <> []) by (destruct a; [congruence|discriminate]).
  assert (Hdab : utf8_decode (a ++ b) = Some (ta ++ tb))
    by (rewrite (utf8_decode_app a b ta Hda), Hdb; reflexivity).
  destruct (step_decoded ld pr mm s a ta Ha Hda) as (s1 & e1 & H1 & _ & Hb1 & Hl1).
  destruct (step_decoded ld pr mm s1 b tb Hb Hdb) as (s2 & e2 & H2 & _ & Hb2 & Hl2).
  destruct (step_decoded ld pr mm s (a ++ b) _ Hab Hdab) as (s3 & e3 & H3 & _ & Hb3 & Hl3).
  exists s1, e1, s2, e2, s3, e3. split; [exact H1|]. split; [exact H2|]. split; [exact H3|].
  rewrite Hb2, Hl2, Hb3, Hl3, Hb1, Hl1, app_assoc.
  split; [apply records_app_rem|apply last_framed_app].
Qed.

(** X6: a record that [json.loads] rejects, or that decodes to something
    other than an object, is answered [ER] and changes nothing. *)
Theorem undecodable_record_error ld pr mm s t :
  line s = Some t ->
  (ld t = None \/ exists v, ld t = Some v /\ forall kvs, v <> JObj kvs) ->
  block ld pr mm s = (Some tt, s, [EvBlock (Some t); EvSend ER]).
Proof.
  intros Hl Hd. unfold block, handle, bind, gets, emit, try_except. rewrite Hl.
  destruct Hd as [-> | (v & -> & Hv)]; [reflexivity|].
  unfold dict_get. destruct v; try reflexivity. exfalso. eapply Hv. reflexivity.
Qed.

(** X7: a [click] record while no image is loaded is answered [BY] and
    changes nothing, whatever its other fields are. *)
Theorem unloaded_click_busy ld pr mm s t kvs :
  line s = Some t -> ld t = Some (JObj kvs) ->
  obj_lookup (txt "action") kvs = Some (JStr (txt "click")) -> features s = None ->
  block ld pr mm s = (Some tt, s, [EvBlock (Some t); EvSend BY]).
Proof.
  intros Hl Hd Ha Hf. unfold block, handle, bind, gets, emit, try_except, dict_get.
  rewrite Hl, Hd. simpl. rewrite Ha. simpl.
  unfold click_branch, bind, gets. rewrite Hf. reflexivity.
Qed.

(** X8: a [set_image] whose [shm_name] resolves to no existing segment (the
    file [_posixshmem.shm_open] reaches after the slash [SharedMemory]
    prepends, the NUL that ends the C string and the leading slashes glibc
    drops), or to no valid segment name at all, is answered [ER] without
    opening anything; the image stays loaded, but the width and height it
    gave are recorded. *)
Theorem set_image_missing_segment ld pr mm s t kvs w h n :
  line s = Some t -> ld t = Some (JObj kvs) ->
  obj_lookup (txt "action") kvs = Some (JStr (txt "set_image")) ->
  obj_lookup (txt "width") kvs = Some w -> obj_lookup (txt "height") kvs = Some h ->
  obj_lookup (txt "shm_name") kvs = Some (JStr n) ->
  (forall k, shm_path (47 :: n) = Some k -> seg_lookup k (segments s) = None) ->
  block ld pr mm s = (Some tt, with_curr_h h (with_curr_w w s), [EvBlock (Some t); EvSend ER]).
Proof.
  intros Hl Hd Ha Hw Hh Hn Hs.
  unfold block, handle, bind, gets, emit, try_except, dict_get.
  rewrite Hl, Hd. simpl. rewrite Ha. simpl.
  unfold set_image_branch, bind, getitem, modify, ret. rewrite Hw, Hh, Hn.
  unfold SharedMemory, shm_open, bind, gets, raise.
  destruct (shm_path (47 :: n)) as [k|] eqn:E; simpl; [rewrite (Hs k eq_refl)|]; reflexivity.
Qed.

(** X9: a [set_image] with positive integer sizes, on an existing nonempty
    segment large enough for them that can be mapped, under a plain ASCII
    name of at most 485 characters with no newline and no colon, whose
    embedding succeeds, opens the segment's file, closes the mapping [shm]
    held before, reads the pixels, closes the new mapping and answers [OK];
    the image and its sizes are recorded, and the name is no longer
    registered with the resource tracker. *)
Theorem set_image_success pr mm kvs w h n k sz s :
  obj_lookup (txt "width") kvs = Some (JInt w) ->
  obj_lookup (txt "height") kvs = Some (JInt h) ->
  obj_lookup (txt "shm_name") kvs = Some (JStr n) ->
  shm_path (47 :: n) = Some k -> seg_lookup k (segments s) = Some sz -> sz <> 0 ->
  mm (with_curr_h (JInt h) (with_curr_w (JInt w) s)) sz = true ->
  forallb (fun c => c <? 128) n = true -> ~ In 10 n -> ~ In 58 n ->
  (List.length n <= 485)%nat ->
  0 < h -> 0 < w -> h * w * 4 <= sz -> h * w * 4 <= intp_max ->
  set_image_outcome pr h w = SetDone ->
  exists s', set_image_branch pr mm (JObj kvs) s =
    (Some tt, s', EvOpen k :: del_events (shm s) ++ [EvRead k; EvClose k; EvSend OK]) /\
    features s' = Some (h, w) /\ curr_img_w s' = JInt w /\ curr_img_h s' = JInt h /\
    shm s' = Some {| sh_name := 47 :: n; sh_file := k; sh_size := sz; sh_open := false |} /\
    m_shm s' = m_shm s /\ segments s' = segments s /\
    tracked s' = filter (fun e => negb (entry_eqb (txt "shared_memory", 47 :: n) e)) (tracked s).
Proof.
  intros Hw Hh Hn Hp Hs Hz Hm Ha H10 H58 Hl Hh0 Hw0 Hle Hmax Hset.
  destruct s as [b l cw ch f o mo sg tr]; simpl in Hs |- *.
  cbv beta iota delta [with_curr_h with_curr_w buffer line curr_img_w curr_img_h features shm
    m_shm segments tracked] in Hm.
  unfold set_image_branch, getitem. rewrite Hw, Hh, Hn.
  cbv beta iota zeta delta [bind ret modify gets with_curr_w with_curr_h].
  rewrite (SharedMemory_ok mm n k sz); [| exact Hp | exact Hs | exact Hz | exact Hm | exact Ha
                                        | exact H10 | exact H58 | exact Hl].
  cbv beta iota zeta delta [assign_local get_local put_local bind ret gets modify with_tracked
    with_shm tracked shm].
  destruct o as [[on ok osz [|]]|];
  cbv beta iota zeta delta [sm_close bind emit ret sh_open sh_file sh_name sh_size];
  (rewrite tracker_unregister_plain;
     [| simpl; exact Ha | intros [H|H]; [discriminate|contradiction]
      | intros [H|H]; [discriminate|contradiction] | simpl; lia]);
  cbv beta iota zeta delta [bind gets with_tracked tracked curr_img_h curr_img_w sh_size];
  rewrite (ndarray_hw4 h w sz) by assumption;
  cbv beta iota zeta delta [bind emit predictor_set_image sh_file];
  rewrite Hset;
  cbv beta iota zeta delta [bind emit ret modify with_features close_local get_local put_local gets
    sm_close sh_open sh_file sh_name sh_size shm with_shm];
  simpl; (eexists; split; [reflexivity|]); simpl;
  rewrite ?filter_register; repeat split.
Qed.

(** X10: a [click] on a loaded image, with a predictable point, an existing
    nonempty segment large enough for the recorded positive integer sizes that
    can be mapped, under a plain ASCII name of at most 485 characters with no
    newline and no colon, and a mask that broadcasts to it, opens the
    segment's file, closes the mapping [m_shm] held before, writes the mask,
    closes the new mapping and answers [OK]; the name is no longer registered
    with the resource tracker. *)
Theorem click_success pr mm kvs x y n k sz s fh fw h w :
  features s = Some (fh, fw) ->
  obj_lookup (txt "x") kvs = Some x -> obj_lookup (txt "y") kvs = Some y ->
  predict_ok pr (fh, fw) x y = true ->
  obj_lookup (txt "shm_name") kvs = Some (JStr n) ->
  shm_path (47 :: n) = Some k -> seg_lookup k (segments s) = Some sz -> sz <> 0 ->
  mm s sz = true ->
  forallb (fun c => c <? 128) n = true -> ~ In 10 n -> ~ In 58 n ->
  (List.length n <= 485)%nat ->
  curr_img_h s = JInt h -> curr_img_w s = JInt w ->
  0 < h -> 0 < w -> h * w <= sz -> h * w <= intp_max ->
  broadcasts (fh, fw) (h, w) = true ->
  exists s', click_branch pr mm (JObj kvs) s =
    (Some tt, s', EvOpen k :: del_events (m_shm s) ++ [EvWrite k; EvClose k; EvSend OK]) /\
    m_shm s' = Some {| sh_name := 47 :: n; sh_file := k; sh_size := sz; sh_open := false |} /\
    shm s' = shm s /\ segments s' = segments s /\
    tracked s' = filter (fun e => negb (entry_eqb (txt "shared_memory", 47 :: n) e)) (tracked s).
Proof.
  intros Hf Hx Hy Hpr Hn Hp Hs Hz Hm Ha H10 H58 Hl Hch Hcw Hh0 Hw0 Hle Hmax Hb.
  destruct s as [b l cw ch f o mo sg tr]; simpl in Hf, Hs, Hch, Hcw |- *. subst f ch cw.
  unfold click_branch, getitem. cbv beta iota delta [bind gets ret features].
  rewrite Hx, Hy. cbv beta iota delta [ret]. rewrite Hpr, Hn.
  cbv beta iota zeta delta [bind ret].
  rewrite (SharedMemory_ok mm n k sz); [| exact Hp | exact Hs | exact Hz | exact Hm | exact Ha
                                        | exact H10 | exact H58 | exact Hl].
  cbv beta iota zeta delta [assign_local get_local put_local bind ret gets modify with_tracked
    with_m_shm tracked m_shm].
  destruct mo as [[on ok osz [|]]|];
  cbv beta iota zeta delta [sm_close bind emit ret sh_open sh_file sh_name sh_size];
  (rewrite tracker_unregister_plain;
     [| simpl; exact Ha | intros [H|H]; [discriminate|contradiction]
      | intros [H|H]; [discriminate|contradiction] | simpl; lia]);
  cbv beta iota zeta delta [bind gets with_tracked tracked curr_img_h curr_img_w sh_size];
  rewrite (ndarray_hw h w sz) by assumption;
  cbv beta iota zeta delta [bind emit sh_file];
  rewrite Hb;
  cbv beta iota zeta delta [bind emit ret modify close_local get_local put_local gets
    sm_close sh_open sh_file sh_name sh_size m_shm with_m_shm];
  simpl; (eexists; split; [reflexivity|]); simpl;
  rewrite ?filter_register; repeat split.
Qed.

(** X11: handling a [click] never changes the loaded image, the recorded
    width and height, [buffer] or [line]. *)
Theorem click_keeps_session pr mm cmd s :
  let '(_, s', _) := click_branch pr mm cmd s in
  features s' = features s /\ curr_img_w s' = curr_img_w s /\
  curr_img_h s' = curr_img_h s /\ buffer s' = buffer s /\ line s' = line s.
Proof.
  pose proof (pres_click_branch pr mm cmd s) as H.
  destruct (click_branch pr mm cmd s) as [[r s'] e].
  unfold untouched in H. inversion H. auto.
Qed.

(** X12: the block writes into a segment only when its reply is [OK]. *)
Theorem block_writes_only_on_ok ld pr mm s n :
  let '(_, _, e) := block ld pr mm s in In (EvWrite n) e -> replies e = [OK].
Proof.
  unfold block, handle, bind, gets, emit, try_except.
  destruct (line s) as [t|]; [|simpl; intuition congruence].
  destruct (ld t) as [cmd|]; [|simpl; intuition congruence].
  unfold dict_get. destruct cmd as [| | | | | |kvs]; try (simpl; intuition congruence).
  cbv beta iota delta [ret].
  destruct (is_action _ "set_image").
  - pose proof (set_image_no_write pr mm (JObj kvs) s n) as H.
    destruct (set_image_branch pr mm (JObj kvs) s) as [[[u|] s1] e1]; simpl;
      intros [Hw|Hw]; try discriminate; [contradiction|].
    apply in_app_or in Hw as [Hw|[Hw|[]]]; [contradiction|discriminate].
  - destruct (is_action _ "click"); [|simpl; intuition congruence].
    pose proof (click_write_ok pr mm (JObj kvs) s n) as H.
    destruct (click_branch pr mm (JObj kvs) s) as [[[u|] s1] e1]; simpl;
      intros [Hw|Hw]; try discriminate.
    + destruct (H Hw) as [_ Hr]. exact Hr.
    + apply in_app_or in Hw as [Hw|[Hw|[]]]; [|discriminate].
      destruct (H Hw). discriminate.
Qed.

(** X13: while every chunk received is nonempty and decodes, the process
    keeps running. *)
Theorem good_chunks_keep_running ld pr mm segs chunks :
  Forall good_chunk chunks -> main_exit ld pr mm true true segs (map Data chunks) = None.
Proof.
  intros Hc. unfold main_exit. simpl.
  rewrite <- (app_nil_r (map Data chunks)).
  destruct (run_good_prefix ld pr mm (init segs) chunks [] Hc) as (s & e & ->).
  reflexivity.
Qed.

(** Concrete instances of the properties above. *)

Ltac not_in_tac :=
  let H := fresh in
  intros H; vm_compute in H; repeat (destruct H as [H|H]; [discriminate|]); exact H.

Lemma chunk_leaves_partial_record_witness :
  rec_set_A2 ++ nl ++ firstn 5 rec_click_B <> [] /\
  utf8_decode (rec_set_A2 ++ nl ++ firstn 5 rec_click_B) =
    Some (rec_set_A2 ++ nl ++ firstn 5 rec_click_B) /\
  exists s' e pre,
    step json_loads sam mmap_fits (init host_segs) (Data (rec_set_A2 ++ nl ++ firstn 5 rec_click_B)) =
      Continue s' e /\
    buffer (init host_segs) ++ (rec_set_A2 ++ nl ++ firstn 5 rec_click_B) = pre ++ buffer s' /\
    ~ In 10 (buffer s') /\ (pre = [] \/ exists p, pre = p ++ [10]).
Proof.
  assert (H1 : rec_set_A2 ++ nl ++ firstn 5 rec_click_B <> [])
    by (intros H; vm_compute in H; discriminate).
  assert (H2 : utf8_decode (rec_set_A2 ++ nl ++ firstn 5 rec_click_B) =
               Some (rec_set_A2 ++ nl ++ firstn 5 rec_click_B)) by (vm_compute; reflexivity).
  split; [exact H1|]. split; [exact H2|].
  exact (chunk_leaves_partial_record json_loads sam mmap_fits (init host_segs) _ _ H1 H2).
Defined.

Lemma chunk_completes_one_record_witness :
  ~ In 10 (buffer (with_frame None (firstn 20 rec_set_A2) (init host_segs))) /\
  utf8_decode (skipn 20 rec_set_A2 ++ nl) = Some (skipn 20 rec_set_A2 ++ [10]) /\
  ~ In 10 (skipn 20 rec_set_A2) /\
  exists s' e,
    block json_loads sam mmap_fits
      (with_frame (Some (buffer (with_frame None (firstn 20 rec_set_A2) (init host_segs))
                         ++ skipn 20 rec_set_A2)) []
         (with_frame None (firstn 20 rec_set_A2) (init host_segs))) = (Some tt, s', e) /\
    step json_loads sam mmap_fits (with_frame None (firstn 20 rec_set_A2) (init host_segs))
      (Data (skipn 20 rec_set_A2 ++ nl)) = Continue s' e /\
    buffer s' = [] /\
    line s' = Some (buffer (with_frame None (firstn 20 rec_set_A2) (init host_segs))
                    ++ skipn 20 rec_set_A2).
Proof.
  assert (H1 : ~ In 10 (buffer (with_frame None (firstn 20 rec_set_A2) (init host_segs))))
    by not_in_tac.
  assert (H2 : utf8_decode (skipn 20 rec_set_A2 ++ nl) = Some (skipn 20 rec_set_A2 ++ [10]))
    by (vm_compute; reflexivity).
  assert (H3 : ~ In 10 (skipn 20 rec_set_A2)) by not_in_tac.
  split; [exact H1|]. split; [exact H2|]. split; [exact H3|].
  exact (chunk_completes_one_record json_loads sam mmap_fits _ _ _ H1 H2 H3).
Defined.

Lemma blank_last_record_error_witness :
  utf8_decode (rec_set_A2 ++ [10; 10]) = Some (rec_set_A2 ++ [10; 10]) /\
  step json_loads sam mmap_fits (init host_segs) (Data (rec_set_A2 ++ [10; 10])) =
    Continue (with_frame (Some []) [] (init host_segs)) [EvBlock (Some []); EvSend ER].
Proof.
  assert (H : utf8_decode (rec_set_A2 ++ [10; 10]) = Some (rec_set_A2 ++ [10; 10]))
    by (vm_compute; reflexivity).
  split; [exact H|]. exact (blank_last_record_error sam mmap_fits (init host_segs) _ _ H).
Defined.

Lemma chunk_without_newline_repeats_line_witness :
  firstn 10 rec_click_B <> [] /\
  utf8_decode (firstn 10 rec_click_B) = Some (firstn 10 rec_click_B) /\
  ~ In 10 (buffer (with_frame (Some rec_set_A2) [] (init host_segs))) /\
  ~ In 10 (firstn 10 rec_click_B) /\
  exists s' e,
    block json_loads sam mmap_fits
      (with_frame (Some rec_set_A2) ([] ++ firstn 10 rec_click_B)
         (with_frame (Some rec_set_A2) [] (init host_segs))) = (Some tt, s', e) /\
    step json_loads sam mmap_fits (with_frame (Some rec_set_A2) [] (init host_segs))
      (Data (firstn 10 rec_click_B)) = Continue s' e /\
    buffer s' = [] ++ firstn 10 rec_click_B /\ line s' = Some rec_set_A2.
Proof.
  assert (H1 : firstn 10 rec_click_B <> []) by (intros H; vm_compute in H; discriminate).
  assert (H2 : utf8_decode (firstn 10 rec_click_B) = Some (firstn 10 rec_click_B))
    by (vm_compute; reflexivity).
  assert (H3 : ~ In 10 (buffer (with_frame (Some rec_set_A2) [] (init host_segs))))
    by not_in_tac.
  assert (H4 : ~ In 10 (firstn 10 rec_click_B)) by not_in_tac.
  split; [exact H1|]. split; [exact H2|]. split; [exact H3|]. split; [exact H4|].
  exact (chunk_without_newline_repeats_line json_loads sam mmap_fits
           (with_frame (Some rec_set_A2) [] (init host_segs)) _ _ H1 H2 H3 H4).
Defined.

Lemma chunk_boundaries_keep_framing_witness :
  firstn 10 rec_set_A2 <> [] /\ skipn 10 rec_set_A2 ++ nl <> [] /\
  utf8_decode (firstn 10 rec_set_A2) = Some (firstn 10 rec_set_A2) /\
  utf8_decode (skipn 10 rec_set_A2 ++ nl) = Some (skipn 10 rec_set_A2 ++ nl) /\
  exists s1 e1 s2 e2 s3 e3,
    step json_loads sam mmap_fits (init host_segs) (Data (firstn 10 rec_set_A2)) = Continue s1 e1 /\
    step json_loads sam mmap_fits s1 (Data (skipn 10 rec_set_A2 ++ nl)) = Continue s2 e2 /\
    step json_loads sam mmap_fits (init host_segs)
      (Data (firstn 10 rec_set_A2 ++ (skipn 10 rec_set_A2 ++ nl))) = Continue s3 e3 /\
    buffer s2 = buffer s3 /\ line s2 = line s3.
Proof.
  assert (H1 : firstn 10 rec_set_A2 <> []) by (intros H; vm_compute in H; discriminate).
  assert (H2 : skipn 10 rec_set_A2 ++ nl <> []) by (intros H; vm_compute in H; discriminate).
  assert (H3 : utf8_decode (firstn 10 rec_set_A2) = Some (firstn 10 rec_set_A2))
    by (vm_compute; reflexivity).
  assert (H4 : utf8_decode (skipn 10 rec_set_A2 ++ nl) = Some (skipn 10 rec_set_A2 ++ nl))
    by (vm_compute; reflexivity).
  split; [exact H1|]. split; [exact H2|]. split; [exact H3|]. split; [exact H4|].
  exact (chunk_boundaries_keep_framing json_loads sam mmap_fits (init host_segs) _ _ _ _ H1 H2 H3 H4).
Defined.

Lemma undecodable_record_error_witness :
  line (with_frame (Some (jtxt "[1]")) [] (init host_segs)) = Some (jtxt "[1]") /\
  json_loads (jtxt "[1]") = Some (JArr [JInt 1]) /\
  block json_loads sam mmap_fits (with_frame (Some (jtxt "[1]")) [] (init host_segs)) =
    (Some tt, with_frame (Some (jtxt "[1]")) [] (init host_segs),
     [EvBlock (Some (jtxt "[1]")); EvSend ER]).
Proof.
  assert (H1 : line (with_frame (Some (jtxt "[1]")) [] (init host_segs)) = Some (jtxt "[1]"))
    by reflexivity.
  assert (H2 : json_loads (jtxt "[1]") = Some (JArr [JInt 1])) by (vm_compute; reflexivity).
  split; [exact H1|]. split; [exact H2|].
  apply (undecodable_record_error json_loads sam mmap_fits _ _ H1).
  right. exists (JArr [JInt 1]). split; [exact H2|]. intros kvs H; discriminate.
Defined.

Lemma unloaded_click_busy_witness :
  json_loads rec_click_B = Some (JObj kvs_click_B) /\
  block json_loads sam mmap_fits (with_frame (Some rec_click_B) [] (init host_segs)) =
    (Some tt, with_frame (Some rec_click_B) [] (init host_segs),
     [EvBlock (Some rec_click_B); EvSend BY]).
Proof.
  assert (H : json_loads rec_click_B = Some (JObj kvs_click_B)) by (vm_compute; reflexivity).
  split; [exact H|].
  apply (unloaded_click_busy json_loads sam mmap_fits _ _ kvs_click_B); [reflexivity|exact H|reflexivity|reflexivity].
Defined.

Lemma set_image_missing_segment_witness :
  json_loads rec_set_Z2 = Some (JObj kvs_set_Z2) /\
  (forall k, shm_path (47 :: txt "Z") = Some k -> seg_lookup k host_segs = None) /\
  block json_loads sam mmap_fits (with_frame (Some rec_set_Z2) [] (init host_segs)) =
    (Some tt, with_curr_h (JInt 2) (with_curr_w (JInt 2)
                (with_frame (Some rec_set_Z2) [] (init host_segs))),
     [EvBlock (Some rec_set_Z2); EvSend ER]).
Proof.
  assert (H1 : json_loads rec_set_Z2 = Some (JObj kvs_set_Z2)) by (vm_compute; reflexivity).
  assert (H2 : forall k, shm_path (47 :: txt "Z") = Some k -> seg_lookup k host_segs = None)
    by (intros k Hk; vm_compute in Hk; injection Hk as <-; reflexivity).
  split; [exact H1|]. split; [exact H2|].
  apply (set_image_missing_segment json_loads sam mmap_fits _ _ kvs_set_Z2 _ _ (txt "Z"));
    first [exact H1 | exact H2 | reflexivity].
Defined.

Lemma set_image_success_witness :
  shm_path (47 :: txt "A") = Some (txt "A") /\ seg_lookup (txt "A") host_segs = Some 16 /\
  set_image_outcome sam 2 2 = SetDone /\
  exists s', set_image_branch sam mmap_fits (JObj kvs_set_A2) (init host_segs) =
    (Some tt, s', EvOpen (txt "A") :: del_events (shm (init host_segs)) ++
                  [EvRead (txt "A"); EvClose (txt "A"); EvSend OK]) /\
    features s' = Some (2, 2) /\ curr_img_w s' = JInt 2 /\ curr_img_h s' = JInt 2 /\
    shm s' = Some {| sh_name := txt "/A"; sh_file := txt "A"; sh_size := 16; sh_open := false |} /\
    m_shm s' = m_shm (init host_segs) /\ segments s' = segments (init host_segs) /\
    tracked s' = filter (fun e => negb (entry_eqb (txt "shared_memory", txt "/A") e))
                   (tracked (init host_segs)).
Proof.
  assert (H0 : shm_path (47 :: txt "A") = Some (txt "A")) by (vm_compute; reflexivity).
  assert (H1 : seg_lookup (txt "A") host_segs = Some 16) by reflexivity.
  assert (H2 : set_image_outcome sam 2 2 = SetDone) by reflexivity.
  split; [exact H0|]. split; [exact H1|]. split; [exact H2|].
  apply (set_image_success sam mmap_fits kvs_set_A2 2 2 (txt "A") (txt "A") 16 (init host_segs));
    first [exact H0 | exact H1 | exact H2 | reflexivity | not_in_tac | (unfold intp_max; lia)
          | (simpl; lia)].
Defined.

Lemma click_success_witness :
  features loaded_2x2 = Some (2, 2) /\ predict_ok sam (2, 2) (JInt 1) (JInt 1) = true /\
  shm_path (47 :: txt "B") = Some (txt "B") /\
  seg_lookup (txt "B") (segments loaded_2x2) = Some 4 /\
  broadcasts (2, 2) (2, 2) = true /\
  exists s', click_branch sam mmap_fits (JObj kvs_click_B) loaded_2x2 =
    (Some tt, s', EvOpen (txt "B") :: del_events (m_shm loaded_2x2) ++
                  [EvWrite (txt "B"); EvClose (txt "B"); EvSend OK]) /\
    m_shm s' = Some {| sh_name := txt "/B"; sh_file := txt "B"; sh_size := 4; sh_open := false |} /\
    shm s' = shm loaded_2x2 /\ segments s' = segments loaded_2x2 /\
    tracked s' = filter (fun e => negb (entry_eqb (txt "shared_memory", txt "/B") e))
                   (tracked loaded_2x2).
Proof.
  assert (H1 : features loaded_2x2 = Some (2, 2)) by reflexivity.
  assert (H2 : predict_ok sam (2, 2) (JInt 1) (JInt 1) = true) by reflexivity.
  assert (H0 : shm_path (47 :: txt "B") = Some (txt "B")) by (vm_compute; reflexivity).
  assert (H3 : seg_lookup (txt "B") (segments loaded_2x2) = Some 4) by reflexivity.
  assert (H4 : broadcasts (2, 2) (2, 2) = true) by reflexivity.
  split; [exact H1|]. split; [exact H2|]. split; [exact H0|]. split; [exact H3|].
  split; [exact H4|].
  apply (click_success sam mmap_fits kvs_click_B (JInt 1) (JInt 1) (txt "B") (txt "B") 4
           loaded_2x2 2 2 2 2);
    first [exact H0 | exact H1 | exact H2 | exact H3 | exact H4 | reflexivity | not_in_tac
          | (unfold intp_max; lia) | (simpl; lia)].
Defined.

Lemma good_chunks_keep_running_witness :
  Forall good_chunk [rec_set_A2 ++ nl; rec_click_B ++ nl] /\
  main_exit json_loads sam mmap_fits true true host_segs (map Data [rec_set_A2 ++ nl; rec_click_B ++ nl])
    = None.
Proof.
  assert (H : Forall good_chunk [rec_set_A2 ++ nl; rec_click_B ++ nl]).
  { repeat constructor; first [intros H; vm_compute in H; discriminate
                              | vm_compute; discriminate]. }
  split; [exact H|]. exact (good_chunks_keep_running json_loads sam mmap_fits host_segs _ H).
Defined.
